(** * usps-tracking: a shallow embedding of [app.py]

    The program polls a carrier tracking page, extracts five text fields
    from the parsed markup, stamps the snapshot with the UTC time and
    inserts it into an SQLite store.  This development embeds the four
    classes of [app.py] ([USPS], [Fetch], [Database], [App]) as Rocq
    functions over an explicit process state and proves the properties
    stated about them.

    Conventions.  A Python [str] is a sequence of Unicode code points;
    the text taken from the parsed page is kept as such while it is
    stripped and split, so that [str.strip] and the regular expression
    class [\S] see Python's whitespace class.  Elsewhere a [str] is the
    byte string of its UTF-8 encoding ([string]).  Python [dict]s with
    string keys are [gmap string string].  A method that raises is a
    computation that returns [Raise e]. *)

From Stdlib Require Import ZArith Ascii String DecimalString.
From stdpp Require Import gmap strings list fin_maps.

Local Open Scope Z_scope.
Local Set Warnings "-register-all".

(** ** Text primitives *)

Module Text.

(** A Python [str] is a sequence of Unicode code points. *)
Abbreviation codepoint := N.

(** [str.isspace] on one character, which is also the class [\s] of the
    [re] module on [str] patterns: U+0009..U+000D, U+001C..U+0020, U+0085,
    U+00A0, U+1680, U+2000..U+200A, U+2028, U+2029, U+202F, U+205F and
    U+3000. *)
Definition isspace (c : codepoint) : bool :=
  ((9 <=? c) && (c <=? 13) || (28 <=? c) && (c <=? 32) ||
   (c =? 133) || (c =? 160) || (c =? 5760) ||
   (8192 <=? c) && (c <=? 8202) || (c =? 8232) || (c =? 8233) ||
   (c =? 8239) || (c =? 8287) || (c =? 12288))%N.

(** [s.lstrip()], [s.rstrip()] and [s.strip()]. *)
Fixpoint lstrip (s : list codepoint) : list codepoint :=
  match s with
  | [] => []
  | c :: s' => if isspace c then lstrip s' else s
  end.

Definition rstrip (s : list codepoint) : list codepoint := rev (lstrip (rev s)).

Definition strip (s : list codepoint) : list codepoint := rstrip (lstrip s).

(** [re.findall(r'\S+', s)]: the maximal runs of non-whitespace characters
    of [s], from left to right. *)
Fixpoint findall_S (s : list codepoint) : list (list codepoint) :=
  match s with
  | [] => []
  | c :: s' =>
      if isspace c then findall_S s'
      else match s' with
           | [] => [[c]]
           | d :: _ =>
               if isspace d then [c] :: findall_S s'
               else match findall_S s' with
                    | w :: ws => (c :: w) :: ws
                    | [] => [[c]]
                    end
           end
  end.

(** [sep.join(parts)]. *)
Fixpoint join (sep : list codepoint) (parts : list (list codepoint)) : list codepoint :=
  match parts with
  | [] => []
  | [p] => p
  | p :: rest => p ++ sep ++ join sep rest
  end.

(** The space character, U+0020. *)
Definition space : codepoint := 32%N.

(** The two last statements of [USPS.parse_last_seen], applied to the text
    of the date element: strip, split on whitespace runs, rejoin. *)
Definition normalize_last_seen (text : list codepoint) : list codepoint :=
  join [space] (findall_S (strip text)).

(** A text is trimmed when [strip] leaves it unchanged. *)
Definition trimmed (s : list codepoint) : Prop := strip s = s.

(** The UTF-8 encoding of one code point and of a text.  Outside the text
    operations above a [str] is kept as the byte string of its encoding. *)
Definition utf8 (c : codepoint) : list ascii :=
  (if c <? 128 then [ascii_of_N c]
   else if c <? 2048 then
     [ascii_of_N (192 + c / 64); ascii_of_N (128 + c mod 64)]
   else if c <? 65536 then
     [ascii_of_N (224 + c / 4096); ascii_of_N (128 + (c / 64) mod 64);
      ascii_of_N (128 + c mod 64)]
   else
     [ascii_of_N (240 + (c / 262144) mod 8); ascii_of_N (128 + (c / 4096) mod 64);
      ascii_of_N (128 + (c / 64) mod 64); ascii_of_N (128 + c mod 64)])%N.

Definition encode (s : list codepoint) : string :=
  string_of_list_ascii (s ≫= utf8).

(** The text whose characters are those of an ASCII literal. *)
Definition codepoints (s : string) : list codepoint :=
  N_of_ascii <$> list_ascii_of_string s.

(** [s.endswith(suffix)] and [s.startswith(prefix)]. *)
Fixpoint startswith_chars (p s : list ascii) : bool :=
  match p, s with
  | [], _ => true
  | _ :: _, [] => false
  | a :: p', b :: s' => if Ascii.eqb a b then startswith_chars p' s' else false
  end.

Definition startswith (s prefix : string) : bool :=
  startswith_chars (list_ascii_of_string prefix) (list_ascii_of_string s).

Definition endswith (s suffix : string) : bool :=
  startswith_chars (rev (list_ascii_of_string suffix)) (rev (list_ascii_of_string s)).

(** [str(n)] for a Python [int]. *)
Definition str_of_int (n : Z) : string := NilZero.string_of_int (Z.to_int n).

(** [s * n]: [n] copies of [s]. *)
Fixpoint repeat_str (s : string) (n : nat) : string :=
  match n with
  | O => ""
  | S n' => s +:+ repeat_str s n'
  end.

(** [re.match(r"^us", s, re.IGNORECASE)]: the first character is u or U and
    the second is s, S or the long s (U+017F, bytes C5 BF in UTF-8), which
    the Unicode case-insensitive mode also accepts for s. *)
Definition match_us (s : string) : bool :=
  match s with
  | String a rest =>
      (Ascii.eqb a "u" || Ascii.eqb a "U") &&
      match rest with
      | String b rest' =>
          Ascii.eqb b "s" || Ascii.eqb b "S" ||
          (Ascii.eqb b "197" &&
           match rest' with String c _ => Ascii.eqb c "191" | _ => false end)
      | _ => false
      end
  | _ => false
  end.

(** Zero-padded decimal fields of [strftime]. *)
Definition digit (n : Z) : ascii := ascii_of_N (Z.to_N (48 + n mod 10)).

Definition pad2 (n : Z) : string :=
  String (digit (n / 10)) (String (digit n) "").

Definition pad4 (n : Z) : string :=
  String (digit (n / 1000)) (String (digit (n / 100)) (pad2 n)).

Definition is_digit (c : ascii) : bool :=
  (48 <=? nat_of_ascii c)%nat && (nat_of_ascii c <=? 57)%nat.

(** The shape [YYYY-MM-DD HH:MM]. *)
Definition is_timestamp (s : string) : bool :=
  match list_ascii_of_string s with
  | [y1; y2; y3; y4; d1; m1; m2; d2; a1; a2; sp; h1; h2; cl; n1; n2] =>
      forallb is_digit [y1; y2; y3; y4; m1; m2; a1; a2; h1; h2; n1; n2] &&
      Ascii.eqb d1 "-" && Ascii.eqb d2 "-" && Ascii.eqb sp " " && Ascii.eqb cl ":"
  | _ => false
  end.

(** A text is blank when it holds whitespace only. *)
Definition blank (s : list codepoint) : Prop :=
  Forall (λ c, isspace c = true) s.

(** No leading whitespace. *)
Definition no_lead (l : list codepoint) : Prop :=
  match l with [] => True | c :: _ => isspace c = false end.

(** A word is a non-empty run without whitespace. *)
Definition is_word (w : list codepoint) : Prop :=
  w ≠ [] ∧ Forall (λ c, isspace c = false) w.

End Text.

(** ** The Python runtime: exceptions, results, external collaborators *)

(** The exceptions the program can raise.  [TypeError] and
    [AttributeError] are raised by the interpreter when [None] is used as
    a string or dereferenced; [ExternalError] stands for an error raised
    inside a collaborator (transport, SQL engine); [OverflowError] is
    raised by the division of two [int]s whose quotient no [float] holds. *)
Inductive exn :=
| TypeError
| AttributeError
| KeyError (key : string)
| ValueError (msg : string)
| Exception (msg : string)
| ProgrammingError (msg : string)
| ExternalError (msg : string)
| OverflowError.

Inductive result (A : Type) :=
| Ok (a : A)
| Raise (e : exn).
Arguments Ok {A} a.
Arguments Raise {A} e.

Definition is_ok {A} (r : result A) : bool :=
  match r with Ok _ => true | Raise _ => false end.

(** A finite [float]: the number [mant * 2 ^ expo]. *)
Record float := { mant : Z; expo : Z }.

(** [a / b] for two [int]s with [b > 0]: the double nearest to the exact
    quotient, ties to even, and [OverflowError] when that is beyond the
    range of a double.  The quotient is scaled so that its integer part
    has 53 bits (fewer in the subnormal range) and rounded there. *)
Definition int_truediv (a : Z) (b : positive) : result float :=
  if a =? 0 then Ok {| mant := 0; expo := 0 |} else
  let n := Z.abs a in
  let b := Z.pos b in
  let l := Z.log2 n - Z.log2 b in
  let reaches := if 0 <=? l then b * 2 ^ l <=? n else b <=? n * 2 ^ (- l) in
  let sh := Z.min (52 - (if reaches then l else l - 1)) 1074 in
  let num := if 0 <=? sh then n * 2 ^ sh else n in
  let den := if 0 <=? sh then b else b * 2 ^ (- sh) in
  let q := num / den in
  let r := num mod den in
  let m := if (den <? 2 * r) || ((den =? 2 * r) && Z.odd q) then q + 1 else q in
  if 1024 + sh <=? Z.log2 m then Raise OverflowError
  else Ok {| mant := Z.sgn a * m; expo := - sh |}.

(** [int(x)] for a finite [float]: the integer part, towards zero. *)
Definition int_of_float (x : float) : Z :=
  if 0 <=? expo x then mant x * 2 ^ expo x
  else mant x `quot` 2 ^ (- expo x).

Abbreviation dict := (gmap string string).

(** [requests.Response]: the two attributes the program reads. *)
Record Response := { status_code : Z; text : string }.

(** [Response.ok] of the transport library: true unless [raise_for_status]
    would raise, that is unless the status is a client error (400..499) or
    a server error (500..599). *)
Definition Response_ok (r : Response) : bool :=
  negb ((400 <=? status_code r) && (status_code r <? 600)).

(** The parse tree built by the markup parser: text nodes and tags with
    their class attribute and children. *)
Inductive node :=
| NavigableString (s : list Text.codepoint)
| Tag (name : string) (classes : list string) (children : list node).

(** [tag.find(name, {"class": cls})] and [soup.find(...)]: the first tag
    in document order with that name and class. *)
Fixpoint find_node (name cls : string) (n : node) : option node :=
  match n with
  | NavigableString _ => None
  | Tag nm cs kids =>
      if String.eqb nm name && bool_decide (cls ∈ cs) then Some n
      else (fix go (ks : list node) : option node :=
              match ks with
              | [] => None
              | k :: ks' =>
                  match find_node name cls k with
                  | Some r => Some r
                  | None => go ks'
                  end
              end) kids
  end.

Fixpoint find (name cls : string) (soup : list node) : option node :=
  match soup with
  | [] => None
  | n :: rest =>
      match find_node name cls n with
      | Some r => Some r
      | None => find name cls rest
      end
  end.

(** [tag.text]: the concatenation of the strings below the tag. *)
Fixpoint get_text (n : node) : list Text.codepoint :=
  match n with
  | NavigableString s => s
  | Tag _ _ kids =>
      (fix go (ks : list node) : list Text.codepoint :=
         match ks with
         | [] => []
         | k :: ks' => get_text k ++ go ks'
         end) kids
  end.

(** [datetime.datetime]: the fields the timestamp format reads. *)
Record datetime := { year : Z; month : Z; day : Z; hour : Z; minute : Z }.

(** The ranges the [datetime] type enforces. *)
Definition valid_datetime (t : datetime) : Prop :=
  1 ≤ year t ≤ 9999 ∧ 1 ≤ month t ≤ 12 ∧ 1 ≤ day t ≤ 31 ∧
  0 ≤ hour t ≤ 23 ∧ 0 ≤ minute t ≤ 59.

(** [t.strftime("%Y-%m-%d %H:%M")]. *)
Definition strftime (t : datetime) : string :=
  Text.pad4 (year t) +:+ "-" +:+ Text.pad2 (month t) +:+ "-" +:+
  Text.pad2 (day t) +:+ " " +:+ Text.pad2 (hour t) +:+ ":" +:+
  Text.pad2 (minute t).

(** The collaborators outside the program: the SQL engine, the HTTP
    transport, the markup parser, the [.env] file and the clock.  The
    engine maps a statement, its named parameters and a store state to a
    new state or an error; [is_dml] tells the statements before which the
    [sqlite3] module opens a transaction implicitly (INSERT, UPDATE,
    DELETE, REPLACE).  The transport and the clock are indexed by the
    number of earlier calls. *)
Class Externals := {
  DbState : Type;
  empty_db : DbState;
  sql_exec : string → option dict → DbState → result DbState;
  is_dml : string → bool;
  http_get : nat → string → option string → result Response;
  html_parser : string → list node;
  dotenv : dict;
  utc_clock : nat → datetime
}.

(** What the process does that is visible from outside or that allocates
    an object. *)
Inductive event :=
| EvAlloc (cls : string) (oid : nat)
| EvRequest (url : string) (user_agent : option string)
| EvSnapshot (oid : nat)
| EvPrint (line : string)
| EvSleep (seconds : Z).

Section Program.
Context `{Ext : Externals}.

(** An [sqlite3.Connection]: its file, whether it is open, and the state
    of the transaction in progress, if any. *)
Record Connection := { c_file : string; c_open : bool; c_tx : option DbState }.

(** A [Database] object; an attribute is [None] until [__init__] sets it.
    A cursor is identified by the connection it was created from. *)
Record Database := { name : option string; conn : option nat; cursor : option nat }.

(** The state of the process: environment, object heap, connections,
    committed contents of the store files, and the trace (newest first). *)
Record World := {
  environ : dict;
  next_oid : nat;
  connections : gmap nat Connection;
  files : gmap string DbState;
  databases : gmap nat Database;
  Database_instance : option nat;
  requests_sent : nat;
  clock_reads : nat;
  events : list event
}.

(** Computations: a state transformer that returns a value or raises. *)
Definition M (A : Type) : Type := World → result A * World.

Definition ret {A} (a : A) : M A := λ w, (Ok a, w).
Definition raise {A} (e : exn) : M A := λ w, (Raise e, w).
Definition of_result {A} (r : result A) : M A := λ w, (r, w).
Definition bind {A B} (c : M A) (k : A → M B) : M B :=
  λ w, match c w with
       | (Ok a, w') => k a w'
       | (Raise e, w') => (Raise e, w')
       end.

End Program.

Notation "'let!' x ':=' c 'in' k" := (bind c (λ x, k))
  (at level 10, x name, c at level 100, k at level 200,
   format "'[v' 'let!'  x  :=  c  'in' '/' k ']'").
Notation "'do!' c 'in' k" := (bind c (λ _, k))
  (at level 10, c at level 100, k at level 200,
   format "'[v' 'do!'  c  'in' '/' k ']'").

Section Runtime.
Context `{Ext : Externals}.

(** *** Updating one component of the process state *)

Definition with_environ (env : dict) (w : World) : World :=
  {| environ := env; next_oid := next_oid w; connections := connections w;
     files := files w; databases := databases w;
     Database_instance := Database_instance w;
     requests_sent := requests_sent w; clock_reads := clock_reads w;
     events := events w |}.

Definition with_next_oid (n : nat) (w : World) : World :=
  {| environ := environ w; next_oid := n; connections := connections w;
     files := files w; databases := databases w;
     Database_instance := Database_instance w;
     requests_sent := requests_sent w; clock_reads := clock_reads w;
     events := events w |}.

Definition with_connections (cs : gmap nat Connection) (w : World) : World :=
  {| environ := environ w; next_oid := next_oid w; connections := cs;
     files := files w; databases := databases w;
     Database_instance := Database_instance w;
     requests_sent := requests_sent w; clock_reads := clock_reads w;
     events := events w |}.

Definition with_files (fs : gmap string DbState) (w : World) : World :=
  {| environ := environ w; next_oid := next_oid w; connections := connections w;
     files := fs; databases := databases w;
     Database_instance := Database_instance w;
     requests_sent := requests_sent w; clock_reads := clock_reads w;
     events := events w |}.

Definition with_databases (ds : gmap nat Database) (w : World) : World :=
  {| environ := environ w; next_oid := next_oid w; connections := connections w;
     files := files w; databases := ds;
     Database_instance := Database_instance w;
     requests_sent := requests_sent w; clock_reads := clock_reads w;
     events := events w |}.

Definition with_Database_instance (i : option nat) (w : World) : World :=
  {| environ := environ w; next_oid := next_oid w; connections := connections w;
     files := files w; databases := databases w;
     Database_instance := i;
     requests_sent := requests_sent w; clock_reads := clock_reads w;
     events := events w |}.

Definition with_requests_sent (n : nat) (w : World) : World :=
  {| environ := environ w; next_oid := next_oid w; connections := connections w;
     files := files w; databases := databases w;
     Database_instance := Database_instance w;
     requests_sent := n; clock_reads := clock_reads w;
     events := events w |}.

Definition with_clock_reads (n : nat) (w : World) : World :=
  {| environ := environ w; next_oid := next_oid w; connections := connections w;
     files := files w; databases := databases w;
     Database_instance := Database_instance w;
     requests_sent := requests_sent w; clock_reads := n;
     events := events w |}.

Definition with_events (es : list event) (w : World) : World :=
  {| environ := environ w; next_oid := next_oid w; connections := connections w;
     files := files w; databases := databases w;
     Database_instance := Database_instance w;
     requests_sent := requests_sent w; clock_reads := clock_reads w;
     events := es |}.

(** *** Primitive computations *)

Definition emit (e : event) : M unit :=
  λ w, (Ok tt, with_events (e :: events w) w).

(** Allocation of a fresh object of class [cls]. *)
Definition alloc (cls : string) : M nat :=
  λ w, (Ok (next_oid w),
        with_events (EvAlloc cls (next_oid w) :: events w)
          (with_next_oid (S (next_oid w)) w)).

(** [load_dotenv()]: variables of the [.env] file are added to the
    environment; a variable that is already set keeps its value. *)
Definition load_dotenv : M unit :=
  λ w, (Ok tt, with_environ (environ w ∪ dotenv) w).

(** [os.getenv(key)]. *)
Definition getenv (key : string) : M (option string) :=
  λ w, (Ok (environ w !! key), w).

(** [print(line)]. *)
Definition print (line : string) : M unit := emit (EvPrint line).

(** [await asyncio.sleep(seconds)]. *)
Definition asyncio_sleep (seconds : Z) : M unit := emit (EvSleep seconds).

(** [datetime.datetime.utcnow()]. *)
Definition utcnow : M datetime :=
  λ w, (Ok (utc_clock (clock_reads w)), with_clock_reads (S (clock_reads w)) w).

(** [requests.get(url, allow_redirects=True, headers={"User-Agent": ua})]. *)
Definition requests_get (url : string) (ua : option string) : M Response :=
  λ w, let w' := with_events (EvRequest url ua :: events w)
                   (with_requests_sent (S (requests_sent w)) w) in
       (http_get (requests_sent w) url ua, w').

(** [d[key]] on a dict. *)
Definition getitem (d : dict) (key : string) : M string :=
  match d !! key with
  | Some v => ret v
  | None => raise (KeyError key)
  end.

(** *** The [sqlite3] module *)

Definition closed_msg : string := "Cannot operate on a closed database.".

(** [sqlite3.connect(name)]: a new open connection on the file. *)
Definition sqlite3_connect (file : string) : M nat :=
  let! c := alloc "Connection" in
  λ w, (Ok c, with_connections
                (<[c := {| c_file := file; c_open := true; c_tx := None |}]>
                   (connections w)) w).

(** The connection behind an identifier, if it is open. *)
Definition open_connection (c : nat) : M Connection :=
  λ w, match connections w !! c with
       | Some cn => if c_open cn then (Ok cn, w)
                    else (Raise (ProgrammingError closed_msg), w)
       | None => (Raise (ProgrammingError closed_msg), w)
       end.

(** The contents a statement on the connection sees: those of the
    transaction in progress, else the committed contents of the file. *)
Definition visible_state (cn : Connection) (w : World) : DbState :=
  match c_tx cn with
  | Some d => d
  | None => default empty_db (files w !! c_file cn)
  end.

(** [cursor.execute(sql, params)] for a cursor of connection [c].  A
    failing statement changes nothing.  A statement that succeeds inside
    a transaction (one in progress, or one opened implicitly before a
    data-modification statement) stays pending; otherwise it is committed
    at once. *)
Definition Cursor_execute (c : nat) (sql : option string) (params : option dict)
  : M unit :=
  match sql with
  | None => raise TypeError
  | Some q =>
      let! cn := open_connection c in
      λ w, match sql_exec q params (visible_state cn w) with
           | Raise e => (Raise e, w)
           | Ok d =>
               if bool_decide (is_Some (c_tx cn)) || is_dml q
               then (Ok tt, with_connections
                              (<[c := {| c_file := c_file cn; c_open := true;
                                         c_tx := Some d |}]> (connections w)) w)
               else (Ok tt, with_files (<[c_file cn := d]> (files w)) w)
           end
  end.

(** [connection.commit()]. *)
Definition Connection_commit (c : nat) : M unit :=
  let! cn := open_connection c in
  λ w, match c_tx cn with
       | Some d =>
           (Ok tt, with_files (<[c_file cn := d]> (files w))
                     (with_connections
                        (<[c := {| c_file := c_file cn; c_open := true;
                                   c_tx := None |}]> (connections w)) w))
       | None => (Ok tt, w)
       end.

(** [connection.rollback()]. *)
Definition Connection_rollback (c : nat) : M unit :=
  let! cn := open_connection c in
  λ w, (Ok tt, with_connections
                 (<[c := {| c_file := c_file cn; c_open := true;
                            c_tx := None |}]> (connections w)) w).

(** [connection.close()]: a transaction in progress is discarded. *)
Definition Connection_close (c : nat) : M unit :=
  λ w, match connections w !! c with
       | Some cn =>
           (Ok tt, with_connections
                     (<[c := {| c_file := c_file cn; c_open := false;
                                c_tx := None |}]> (connections w)) w)
       | None => (Ok tt, w)
       end.

(** [with connection: body].  Entering does nothing; leaving commits when
    the body returned and rolls back when it raised, and the exception of
    the body (or of the commit or rollback itself) propagates. *)
Definition with_connection {A} (c : nat) (body : M A) : M A :=
  λ w, match body w with
       | (Ok a, w1) =>
           match Connection_commit c w1 with
           | (Ok _, w2) => (Ok a, w2)
           | (Raise e, w2) => (Raise e, snd (Connection_rollback c w2))
           end
       | (Raise e, w1) =>
           match Connection_rollback c w1 with
           | (Ok _, w2) => (Raise e, w2)
           | (Raise e', w2) => (Raise e', w2)
           end
       end.

End Runtime.

(** ** The classes of [app.py] *)

(** A [Fetch] object: its identity and the strategy it wraps. *)
Record Fetch (S : Type) := { fetch_oid : nat; strategy : S }.
Arguments fetch_oid {S} _.
Arguments strategy {S} _.

Section Classes.
Context `{Ext : Externals}.

(** *** [FetchStrategy]: the abstract interface *)


Class FetchStrategy (S : Type) := {
  __str__ : S → option string;
  tracking_number : S → M string;
  get : S → string → M Response;
  parse_content : S → M string;
  parse_status : S → M string;
  parse_detail : S → M string;
  parse_location : S → M string;
  parse_last_seen : S → M string;
  data : S → M dict
}.

(** *** [USPS] *)

(** A constructed [USPS] object.  Its attributes are assigned once, in
    [__init__]; [oid] is the identity of the object. *)
Record USPS := {
  oid : nat;
  _tracking_number : string;
  BASE_URL : string;
  response : Response;
  soup : list node
}.

(** The body of [USPS.get]; of [self] it reads [BASE_URL] only.  The
    concatenation raises [TypeError] when the tracking number is [None]. *)
Definition USPS_get_url (base_url : string) (tracking_number : option string)
  : M Response :=
  match tracking_number with
  | None => raise TypeError
  | Some tn =>
      let! ua := getenv "USER_AGENT" in
      let! response := requests_get (base_url +:+ tn) ua in
      if negb (Response_ok response)
      then raise (Exception ("Error: " +:+ Text.str_of_int (status_code response)))
      else ret response
  end.

Definition USPS_get (self : USPS) (tracking_number : string) : M Response :=
  USPS_get_url (BASE_URL self) (Some tracking_number).

(** [USPS.__init__].  The constructor completes only if the request
    succeeded, hence only if [TRACKING_NUMBER] is set. *)
Definition USPS_init : M USPS :=
  let! o := alloc "USPS" in
  do! load_dotenv in
  let! tn := getenv "TRACKING_NUMBER" in
  let base_url := "https://tools.usps.com/go/TrackConfirmAction.action?tLabels=" in
  let! response := USPS_get_url base_url tn in
  match tn with
  | None => raise TypeError
  | Some t =>
      ret {| oid := o; _tracking_number := t; BASE_URL := base_url;
             response := response; soup := html_parser (text response) |}
  end.

Definition USPS_str (self : USPS) : string := BASE_URL self.

Definition USPS_tracking_number (self : USPS) : M string :=
  ret (_tracking_number self).

(** [soup.find("p", {"class": cls}).text]: [find] returns [None] when no
    element matches, and reading [.text] of [None] raises. *)
Definition p_text (soup : list node) (cls : string) : M (list Text.codepoint) :=
  match find "p" cls soup with
  | Some n => ret (get_text n)
  | None => raise AttributeError
  end.

Definition USPS_parse_content (self : USPS) : M string :=
  let content := "banner-content" in
  let! t := p_text (soup self) content in
  ret (Text.encode (Text.strip t)).

Definition USPS_parse_status (self : USPS) : M string :=
  let status := "tb-status" in
  let! t := p_text (soup self) status in
  ret (Text.encode (Text.strip t)).

Definition USPS_parse_detail (self : USPS) : M string :=
  let detail := "tb-status-detail" in
  let! t := p_text (soup self) detail in
  ret (Text.encode (Text.strip t)).

Definition USPS_parse_location (self : USPS) : M string :=
  let location := "tb-location" in
  let! t := p_text (soup self) location in
  ret (Text.encode (Text.strip t)).

Definition USPS_parse_last_seen (self : USPS) : M string :=
  let date := "tb-date" in
  let! t := p_text (soup self) date in
  let date := Text.strip t in
  let date := Text.findall_S date in
  ret (Text.encode (Text.join [Text.space] date)).

(** [USPS.data]; the trace records on which object it runs. *)
Definition USPS_data (self : USPS) : M dict :=
  do! emit (EvSnapshot (oid self)) in
  let! tracking_number := USPS_tracking_number self in
  let! content := USPS_parse_content self in
  let! status := USPS_parse_status self in
  let! detail := USPS_parse_detail self in
  let! location := USPS_parse_location self in
  let! last_seen := USPS_parse_last_seen self in
  ret (list_to_map [("tracking_number", tracking_number);
                    ("content", content);
                    ("status", status);
                    ("detail", detail);
                    ("location", location);
                    ("last_seen", last_seen)]).

#[export] Instance USPS_FetchStrategy : FetchStrategy USPS := {
  __str__ := λ self, Some (USPS_str self);
  tracking_number := USPS_tracking_number;
  get := USPS_get;
  parse_content := USPS_parse_content;
  parse_status := USPS_parse_status;
  parse_detail := USPS_parse_detail;
  parse_location := USPS_parse_location;
  parse_last_seen := USPS_parse_last_seen;
  data := USPS_data
}.

(** *** [Fetch]: the context object *)

Definition Fetch_init {S} (strategy : S) : M (Fetch S) :=
  let! o := alloc "Fetch" in
  ret {| fetch_oid := o; strategy := strategy |}.

Section FetchMethods.
Context {S : Type} `{FS : !FetchStrategy S}.









Definition Fetch_data (self : Fetch S) : M dict :=
  data (strategy self).

End FetchMethods.

(** *** [Database] *)

Definition ext : string := ".db".

(** Attribute access on a [Database] object of the heap. *)
Definition Database_obj (self : nat) : M Database :=
  λ w, match databases w !! self with
       | Some o => (Ok o, w)
       | None => (Raise AttributeError, w)
       end.

Definition attr_conn (self : nat) : M nat :=
  let! o := Database_obj self in
  match conn o with Some c => ret c | None => raise AttributeError end.

Definition attr_cursor (self : nat) : M nat :=
  let! o := Database_obj self in
  match cursor o with Some c => ret c | None => raise AttributeError end.

Definition attr_name (self : nat) : M string :=
  let! o := Database_obj self in
  match name o with Some s => ret s | None => raise AttributeError end.

Definition set_name (self : nat) (v : string) : M unit :=
  let! o := Database_obj self in
  λ w, (Ok tt, with_databases
                 (<[self := {| name := Some v; conn := conn o; cursor := cursor o |}]>
                    (databases w)) w).

Definition set_conn (self : nat) (v : nat) : M unit :=
  let! o := Database_obj self in
  λ w, (Ok tt, with_databases
                 (<[self := {| name := name o; conn := Some v; cursor := cursor o |}]>
                    (databases w)) w).

Definition set_cursor (self : nat) (v : nat) : M unit :=
  let! o := Database_obj self in
  λ w, (Ok tt, with_databases
                 (<[self := {| name := name o; conn := conn o; cursor := Some v |}]>
                    (databases w)) w).

(** [Database.__new__]: the class attribute [instance] holds the one
    object; it is created on the first call. *)
Definition Database_new : M nat :=
  λ w, match Database_instance w with
       | Some i => (Ok i, w)
       | None =>
           (let! i := alloc "Database" in
            λ w', (Ok i,
                   with_Database_instance (Some i)
                     (with_databases
                        (<[i := {| name := None; conn := None; cursor := None |}]>
                           (databases w')) w'))) w
       end.

(** [Database.__init__]. *)
Definition Database_init (self : nat) (name sql : option string) : M unit :=
  match name with
  | None => raise AttributeError
  | Some nm =>
      if negb (Text.endswith nm ext)
      then raise (ValueError (nm +:+ " must end with " +:+ ext))
      else
        do! set_name self nm in
        let! nm' := attr_name self in
        let! c := sqlite3_connect nm' in
        do! set_conn self c in
        let! c' := attr_conn self in
        do! set_cursor self c' in
        let! cur := attr_cursor self in
        do! Cursor_execute cur sql None in
        let! c'' := attr_conn self in
        Connection_commit c''
  end.

(** The call [Database(name, sql)]: [__new__], then [__init__] on the
    object it returned. *)
Definition Database_construct (name sql : option string) : M nat :=
  let! self := Database_new in
  do! Database_init self name sql in
  ret self.

Definition Database_str (self : nat) : M string := attr_name self.

Definition Database_enter (self : nat) : M nat := ret self.

Definition Database_exit (self : nat) : M unit :=
  let! c := attr_conn self in
  Connection_close c.

(** [with mgr as db: body db].  [__exit__] runs when the body returned and
    when it raised; it returns [None], so an exception of the body
    propagates. *)
Definition with_Database {A} (mgr : nat) (body : nat → M A) : M A :=
  let! db := Database_enter mgr in
  λ w, match body db w with
       | (Ok a, w1) =>
           match Database_exit mgr w1 with
           | (Ok _, w2) => (Ok a, w2)
           | (Raise e, w2) => (Raise e, w2)
           end
       | (Raise e, w1) =>
           match Database_exit mgr w1 with
           | (Ok _, w2) => (Raise e, w2)
           | (Raise e', w2) => (Raise e', w2)
           end
       end.

Definition Database_insert (self : nat) (sql : option string) (data : dict) : M unit :=
  let! c := attr_conn self in
  do! with_connection c
        (let! cur := attr_cursor self in
         Cursor_execute cur sql (Some data)) in
  let! c' := attr_conn self in
  Connection_commit c'.

Definition Database_update (self : nat) (sql : option string) (data : dict) : M unit :=
  let! c := attr_conn self in
  do! with_connection c
        (let! cur := attr_cursor self in
         Cursor_execute cur sql (Some data)) in
  let! c' := attr_conn self in
  Connection_commit c'.

Definition Database_delete (self : nat) (sql : option string) (data : dict) : M unit :=
  let! c := attr_conn self in
  do! with_connection c
        (let! cur := attr_cursor self in
         Cursor_execute cur sql (Some data)) in
  let! c' := attr_conn self in
  Connection_commit c'.

End Classes.

(** *** [App] *)

Section Application.
Context `{Ext : Externals}.

Record App := {
  sleep : Z;
  seperator : string;
  delivery_service : USPS;
  database : nat
}.

(** The separator character, an em dash (U+2014) in UTF-8. *)
Definition em_dash : string := String "226" (String "128" (String "148" "")).

(** [data.update(other)]: the keys of [other] are set in [data]. *)
Definition dict_update (data other : dict) : dict := other ∪ data.

(** [App.__init__]. *)
Definition App_init (delivery_service : string) : M App :=
  do! load_dotenv in
  let sleep := 15 * 60 in
  let seperator := em_dash in
  let! usps :=
    (if Text.match_us delivery_service then USPS_init
     else raise (ValueError "Delivery Service is not supported.")) in
  let! db_name := getenv "DB_NAME" in
  let! create_table := getenv "CREATE_TABLE" in
  let! mgr := Database_construct db_name create_table in
  with_Database mgr (λ db,
    ret {| sleep := sleep; seperator := seperator;
           delivery_service := usps; database := db |}).

Definition App_str (self : App) : string := "App fetches data from USPS.".

(** [App.save_data]. *)
Definition App_save_data (self : App) (data : dict) : M unit :=
  let! now := utcnow in
  let data := dict_update data {[ "date" := strftime now ]} in
  let! insert_status := getenv "INSERT_STATUS" in
  Database_insert (database self) insert_status data.

(** The message announcing the next poll.  [int(self.sleep / 60)] divides
    two [int]s into a [float] and takes its integer part. *)
Definition next_poll_message (self : App) : result string :=
  match int_truediv (sleep self) 60 with
  | Ok minutes =>
      Ok ("Saving results." +:+ String "010" "" +:+ "Fetching new data in " +:+
          Text.str_of_int (int_of_float minutes) +:+ " minutes.")
  | Raise e => Raise e
  end.

(** One iteration of the loop of [App.run]. *)
Definition App_cycle (self : App) : M unit :=
  let! fetch := Fetch_init (delivery_service self) in
  let! data := Fetch_data fetch in
  let! tn := getitem data "tracking_number" in
  let! status := getitem data "status" in
  do! print ("Last Status for Tracking Number " +:+ tn +:+ " " +:+ em_dash +:+
             "> " +:+ status) in
  let! content := getitem data "content" in
  do! print content in
  let! detail := getitem data "detail" in
  let! location := getitem data "location" in
  do! print (detail +:+ ": " +:+ location) in
  let! last_seen := getitem data "last_seen" in
  do! print ("Last Seen on " +:+ last_seen) in
  let! message := of_result (next_poll_message self) in
  do! App_save_data self data in
  do! print (Text.repeat_str (seperator self) (String.length message)) in
  do! print message in
  do! print "" in
  asyncio_sleep (sleep self).

(** [App.run]: the loop [while True].  [App_run n] runs the first [n]
    iterations; the loop only ends by an exception. *)
Fixpoint App_run (n : nat) (self : App) : M unit :=
  match n with
  | O => ret tt
  | S n' => do! App_cycle self in App_run n' self
  end.

End Application.

(** ** Vocabulary of the statements *)

Section Vocabulary.
Context `{Ext : Externals}.

(** The class names that locate the five parsed fields, with the key each
    one fills in the snapshot. *)
Definition field_markers : list (string * string) :=
  [("banner-content", "content"); ("tb-status", "status");
   ("tb-status-detail", "detail"); ("tb-location", "location");
   ("tb-date", "last_seen")].

(** Markup is well formed when each of the five elements is present. *)
Definition well_formed (soup : list node) : Prop :=
  Forall (λ m, is_Some (find "p" m.1 soup)) field_markers.



Definition snapshot_keys : gset string :=
  {[ "tracking_number"; "content"; "status"; "detail"; "location"; "last_seen" ]}.

(** [respects R c]: running [c] relates the state before to the state
    after by [R], whether [c] returns or raises. *)
Definition respects (R : World → World → Prop) {A} (c : M A) : Prop :=
  ∀ w, R w (snd (c w)).

(** The store is untouched: same committed contents, same connections. *)
Definition store_untouched (w w' : World) : Prop :=
  files w' = files w ∧ connections w' = connections w ∧
  databases w' = databases w ∧ Database_instance w' = Database_instance w.

(** The committed contents of the files are the same. *)
Definition files_kept (w w' : World) : Prop := files w' = files w.

(** The trace grew by events that satisfy [P], and no request was sent. *)
Definition trace_grows (P : event → Prop) (w w' : World) : Prop :=
  (∃ delta, events w' = delta ++ events w ∧ Forall P delta) ∧
  requests_sent w' = requests_sent w.

(** What an iteration of the loop may add to the trace: no request, no
    new [USPS] object, and snapshots of the one strategy [s] only. *)
Definition loop_event (s : USPS) (e : event) : Prop :=
  match e with
  | EvRequest _ _ => False
  | EvAlloc cls _ => cls ≠ "USPS"
  | EvSnapshot o => o = oid s
  | EvPrint _ | EvSleep _ => True
  end.

(** The cursor of a [Database] object belongs to its connection. *)
Definition cursor_on_conn (w : World) (self : nat) : Prop :=
  ∀ o, databases w !! self = Some o → cursor o = conn o.

(** The outcome of a write operation started in [w]: when it raised, the
    committed contents are those of [w]; when it returned, the statement
    ran on the contents visible to the connection and its result is the
    committed contents of the file, with no transaction left open. *)
Definition atomic_outcome (self : nat) (sql : option string) (data : dict)
    (w : World) (out : result unit * World) : Prop :=
  match out.1 with
  | Raise _ => files out.2 = files w
  | Ok _ =>
      ∃ c cn q d,
        attr_conn self w = (Ok c, w) ∧
        connections w !! c = Some cn ∧ c_open cn = true ∧
        sql = Some q ∧
        sql_exec q (Some data) (visible_state cn w) = Ok d ∧
        files out.2 = <[c_file cn := d]> (files w) ∧
        ∃ cn', connections out.2 !! c = Some cn' ∧ c_tx cn' = None ∧
               c_open cn' = true
  end.

End Vocabulary.

(** ** A concrete environment *)

(** A tracking page with the five elements. *)
Definition demo_page : list node :=
  [Tag "html" []
     [Tag "body" []
        [Tag "p" ["banner-content"] [NavigableString (Text.codepoints " X ")];
         Tag "div" ["tb-step"; "current-step"]
           [Tag "p" ["tb-status"] [NavigableString (Text.codepoints "In Transit")];
            Tag "p" ["tb-status-detail"] [NavigableString (Text.codepoints "Y")];
            Tag "p" ["tb-location"] [NavigableString (Text.codepoints "Chicago, IL")];
            Tag "p" ["tb-date"]
              [NavigableString (Text.codepoints ("Nov 3, 2023" +:+ String "010" "  10:15 AM"))]]]]].

(** An engine that knows one table, [status], with the column [date].
    Its state is the list of the statements it ran, with their
    parameters.  The empty statement runs nothing; creating the table
    always succeeds; an insertion needs the table and a value for the
    parameter [:date]; every other statement is rejected. *)
Definition demo_has_table (d : list (string * option dict)) : bool :=
  existsb (λ e, Text.startswith e.1 "CREATE TABLE IF NOT EXISTS status ") d.

Definition demo_exec (q : string) (params : option dict)
    (d : list (string * option dict)) : result (list (string * option dict)) :=
  if String.eqb q "" then Ok d
  else if Text.startswith q "CREATE TABLE IF NOT EXISTS status " then
    Ok (d ++ [(q, params)])
  else if Text.startswith q "INSERT INTO status " then
    if negb (demo_has_table d) then Raise (ExternalError "no such table: status")
    else match params ≫= (.!! "date") with
         | Some _ => Ok (d ++ [(q, params)])
         | None => Raise (ExternalError "no value for parameter :date")
         end
  else Raise (ExternalError "syntax error").

Definition demo_is_dml (q : string) : bool :=
  Text.startswith q "INSERT" || Text.startswith q "UPDATE" ||
  Text.startswith q "DELETE" || Text.startswith q "REPLACE".

Definition demo_dotenv (tracking : string) : dict :=
  list_to_map [("TRACKING_NUMBER", tracking);
               ("USER_AGENT", "Mozilla/5.0");
               ("DB_NAME", "tracking.db");
               ("CREATE_TABLE", "CREATE TABLE IF NOT EXISTS status (date TEXT)");
               ("INSERT_STATUS", "INSERT INTO status VALUES (:date)")].

(** The same page without the date element. *)
Definition demo_page_no_date : list node :=
  [Tag "html" []
     [Tag "body" []
        [Tag "p" ["banner-content"] [NavigableString (Text.codepoints " X ")];
         Tag "p" ["tb-status"] [NavigableString (Text.codepoints "In Transit")];
         Tag "p" ["tb-status-detail"] [NavigableString (Text.codepoints "Y")];
         Tag "p" ["tb-location"] [NavigableString (Text.codepoints "Chicago, IL")]]]].

(** The server answers every request with [status]; the parser returns
    [page]; the configured tracking number is [tracking]. *)
Definition demo_ext (status : Z) (tracking : string) (page : list node)
  : Externals := {|
  DbState := list (string * option dict);
  empty_db := [];
  sql_exec := demo_exec;
  is_dml := demo_is_dml;
  http_get := λ _ _ _, Ok {| status_code := status; text := "<html>" |};
  html_parser := λ _, page;
  dotenv := demo_dotenv tracking;
  utc_clock := λ _, {| year := 2023; month := 11; day := 3; hour := 10; minute := 15 |}
|}.

Definition demo : Externals := demo_ext 200 "9400" demo_page.

(** The state of a process that has just started. *)
Definition start `{Ext : Externals} : World := {|
  environ := ∅; next_oid := 0; connections := ∅; files := ∅; databases := ∅;
  Database_instance := None; requests_sent := 0; clock_reads := 0; events := []
|}.

Definition demo_create : string := "CREATE TABLE IF NOT EXISTS status (date TEXT)".
Definition demo_insert : string := "INSERT INTO status VALUES (:date)".
Definition demo_create_other : string :=
  "CREATE TABLE IF NOT EXISTS status (date TEXT, seen TEXT)".

(** The strategy object and the application that [App.__init__] builds
    in the demo environment. *)
Definition demo_usps : USPS := {|
  oid := 0; _tracking_number := "9400";
  BASE_URL := "https://tools.usps.com/go/TrackConfirmAction.action?tLabels=";
  response := {| status_code := 200; text := "<html>" |};
  soup := demo_page
|}.

Definition demo_app : App := {|
  sleep := 900; seperator := em_dash; delivery_service := demo_usps; database := 1
|}.

(** The state in which [App.__init__] leaves the process. *)
Definition demo_started : @World demo :=
  snd (App_init (Ext := demo) "usps" start).

(** That state after the store was constructed once more, which opens a
    new connection on the instance. *)
Definition demo_reopened : @World demo :=
  snd (Database_construct (Ext := demo) (Some "tracking.db") (Some demo_create)
         demo_started).

(** The state after the store was constructed once on [tracking.db], and
    after it was constructed a second time on [other.db]. *)
Definition demo_store : @World demo :=
  snd (Database_construct (Ext := demo) (Some "tracking.db") (Some demo_create) start).

Definition demo_second : @World demo :=
  snd (Database_construct (Ext := demo) (Some "other.db") (Some demo_create_other)
         demo_store).

(** The same environment with a page that lacks the date element. *)
Definition demo_no_date : Externals := demo_ext 200 "9400" demo_page_no_date.

Definition demo_app_no_date : App := {|
  sleep := 900; seperator := em_dash;
  delivery_service := {|
    oid := 0; _tracking_number := "9400";
    BASE_URL := "https://tools.usps.com/go/TrackConfirmAction.action?tLabels=";
    response := {| status_code := 200; text := "<html>" |};
    soup := demo_page_no_date |};
  database := 1
|}.

Definition demo_no_date_reopened : @World demo_no_date :=
  snd (Database_construct (Ext := demo_no_date) (Some "tracking.db")
         (Some demo_create)
         (snd (App_init (Ext := demo_no_date) "usps" start))).

(** The snapshot events of a trace, oldest first. *)
Definition snapshots (es : list event) : list nat :=
  rev (omap (λ e, match e with EvSnapshot o => Some o | _ => None end) es).

(** The facade that an iteration builds in that state, the state after
    its allocation, and the state its snapshot leaves. *)
Definition demo_no_date_fetch : Fetch USPS :=
  {| fetch_oid := next_oid demo_no_date_reopened;
     strategy := delivery_service demo_app_no_date |}.

Definition demo_no_date_allocated : @World demo_no_date :=
  snd (Fetch_init (Ext := demo_no_date) (delivery_service demo_app_no_date)
         demo_no_date_reopened).

Definition demo_no_date_failed : @World demo_no_date :=
  snd (Fetch_data (Ext := demo_no_date) demo_no_date_fetch demo_no_date_allocated).

(** The demo environment with a server that answers 404, or 304. *)
Definition demo_404 : Externals := demo_ext 404 "9400" demo_page.
Definition demo_304 : Externals := demo_ext 304 "9400" demo_page.

Definition demo_usps_304 : USPS := {|
  oid := 0; _tracking_number := "9400";
  BASE_URL := "https://tools.usps.com/go/TrackConfirmAction.action?tLabels=";
  response := {| status_code := 304; text := "<html>" |};
  soup := demo_page
|}.

(** A strategy over a page whose location element holds a no-break space
    only. *)
Definition demo_page_blank_location : list node :=
  [Tag "html" []
     [Tag "body" []
        [Tag "p" ["banner-content"] [NavigableString (Text.codepoints " X ")];
         Tag "p" ["tb-status"] [NavigableString (Text.codepoints "In Transit")];
         Tag "p" ["tb-status-detail"] [NavigableString (Text.codepoints "Y")];
         Tag "p" ["tb-location"] [NavigableString [160%N]];
         Tag "p" ["tb-date"] [NavigableString (Text.codepoints "Nov 3, 2023")]]]].

Definition demo_usps_blank : USPS := {|
  oid := 0; _tracking_number := "9400";
  BASE_URL := "https://tools.usps.com/go/TrackConfirmAction.action?tLabels=";
  response := {| status_code := 200; text := "<html>" |};
  soup := demo_page_blank_location
|}.

(** The snapshot of the demo page. *)
Definition demo_snapshot : dict :=
  list_to_map [("tracking_number", "9400"); ("content", "X");
               ("status", "In Transit"); ("detail", "Y");
               ("location", "Chicago, IL");
               ("last_seen", "Nov 3, 2023 10:15 AM")].

(** The value of a key in the snapshot a computation returned. *)
Definition snapshot_value (r : result dict) (key : string) : option string :=
  match r with
  | Ok d => d !! key
  | Raise _ => None
  end.

(** The demo environment with another [.env] file. *)
Definition demo_with_dotenv (env : dict) : Externals := {|
  DbState := list (string * option dict);
  empty_db := [];
  sql_exec := demo_exec;
  is_dml := demo_is_dml;
  http_get := λ _ _ _, Ok {| status_code := 200; text := "<html>" |};
  html_parser := λ _, demo_page;
  dotenv := env;
  utc_clock := λ _, {| year := 2023; month := 11; day := 3; hour := 10; minute := 15 |}
|}.

(** No tracking number configured; a store name without the extension. *)
Definition demo_no_tracking : Externals :=
  demo_with_dotenv (delete "TRACKING_NUMBER" (demo_dotenv "9400")).

Definition demo_bad_name : Externals :=
  demo_with_dotenv (<["DB_NAME" := "tracking.sqlite"]> (demo_dotenv "9400")).

(** The base URL of the carrier. *)
Definition usps_base_url : string :=
  "https://tools.usps.com/go/TrackConfirmAction.action?tLabels=".

(** The trace of an iteration that stored its snapshot [d] and announced
    the next poll with [message], newest event first, for the facade
    allocated as object [o]. *)
Definition cycle_events (self : App) (d : dict) (message : string) (o : nat) :
    list event :=
  [EvSleep (sleep self);
   EvPrint "";
   EvPrint message;
   EvPrint (Text.repeat_str (seperator self) (String.length message));
   EvPrint ("Last Seen on " +:+ default "" (d !! "last_seen"));
   EvPrint (default "" (d !! "detail") +:+ ": " +:+ default "" (d !! "location"));
   EvPrint (default "" (d !! "content"));
   EvPrint ("Last Status for Tracking Number " +:+ default "" (d !! "tracking_number")
            +:+ " " +:+ em_dash +:+ "> " +:+ default "" (d !! "status"));
   EvSnapshot (oid (delivery_service self));
   EvAlloc "Fetch" o].

(** The message of an application that polls every 900 seconds. *)
Definition demo_message : string :=
  "Saving results." +:+ String "010" "Fetching new data in 15 minutes.".

Section StoreVocabulary.
Context `{Ext : Externals}.


(** Between two states no connection was opened, closed or moved to
    another file, and the objects are the same. *)
Definition connections_kept (w w' : World) : Prop :=
  databases w' = databases w ∧
  Database_instance w' = Database_instance w ∧
  next_oid w' = next_oid w ∧
  events w' = events w ∧
  ∀ c, (λ cn, (c_file cn, c_open cn)) <$> (connections w' !! c)
       = (λ cn, (c_file cn, c_open cn)) <$> (connections w !! c).

End StoreVocabulary.

(** The row that the demo application stores, and the contents of the
    demo file after the first stored row. *)
Definition demo_row : dict := <["date" := "2023-11-03 10:15"]> demo_snapshot.


(** The state in which the strategy was built and the store not yet. *)
Definition demo_bad_name_fetched : @World demo_bad_name :=
  snd (USPS_init (Ext := demo_bad_name) (snd (load_dotenv start))).

(** ** Facts about the text primitives *)

Module TextFacts.
Import Text.

(** Every match of [\S+] is a word. *)
Lemma findall_S_words (s : list codepoint) :
  Forall is_word (findall_S s).
Proof.
  induction s as [|c s IH]; simpl; [constructor|].
  destruct (isspace c) eqn:Hc; [exact IH|].
  destruct s as [|d s']; [repeat constructor; done|].
  destruct (isspace d) eqn:Hd.
  - constructor; [|exact IH]. repeat constructor; done.
  - destruct (findall_S (d :: s')) as [|w ws] eqn:Hw.
    + repeat constructor; done.
    + inversion IH as [|? ? [Hne Hall] Hrest]; subst.
      constructor; [|exact Hrest]. split; [done|by constructor].
Qed.

(** One unfolding step of the scanner. *)
Lemma findall_S_cons (c : codepoint) (s : list codepoint) :
  findall_S (c :: s) =
  if isspace c then findall_S s
  else match s with
       | [] => [[c]]
       | d :: _ =>
           if isspace d then [c] :: findall_S s
           else match findall_S s with
                | w :: ws => (c :: w) :: ws
                | [] => [[c]]
                end
       end.
Proof. reflexivity. Qed.

(** A word followed by whitespace is found as the first match. *)
Lemma findall_S_word_sep (w : list codepoint) (sp : codepoint) (t : list codepoint) :
  is_word w → isspace sp = true →
  findall_S (w ++ sp :: t) = w :: findall_S t.
Proof.
  intros [Hne Hall] Hsp. induction w as [|c w IH]; [done|].
  inversion Hall as [|? ? Hc Hw]; subst.
  rewrite <- app_comm_cons, findall_S_cons, Hc.
  destruct w as [|d w'].
  - cbn [app]. by rewrite Hsp, findall_S_cons, Hsp.
  - assert (Hd : isspace d = false) by (by inversion Hw).
    rewrite IH; [|discriminate|exact Hw].
    rewrite <- app_comm_cons. by rewrite Hd.
Qed.

Lemma findall_S_word (w : list codepoint) :
  is_word w → findall_S w = [w].
Proof.
  intros [Hne Hall]. induction w as [|c w IH]; [done|].
  inversion Hall as [|? ? Hc Hw]; subst.
  rewrite findall_S_cons, Hc.
  destruct w as [|d w']; [done|].
  assert (Hd : isspace d = false) by (by inversion Hw).
  rewrite Hd. rewrite IH; [done|discriminate|exact Hw].
Qed.

(** Splitting a single-space join of words gives the words back. *)
Lemma findall_S_join (ws : list (list codepoint)) :
  Forall is_word ws →
  findall_S (join [space] ws) = ws.
Proof.
  induction 1 as [|w ws Hw Hws IH]; [done|].
  destruct ws as [|w' ws'].
  - simpl. by apply findall_S_word.
  - change (join [space] (w :: w' :: ws'))
      with (w ++ space :: join [space] (w' :: ws')).
    rewrite findall_S_word_sep; [|done|done]. by rewrite IH.
Qed.

Lemma lstrip_nonspace_head (c : codepoint) (t : list codepoint) :
  isspace c = false → lstrip (c :: t) = c :: t.
Proof. intros Hc. simpl. by rewrite Hc. Qed.

Lemma rstrip_nonspace_last (c : codepoint) (t : list codepoint) :
  isspace c = false → rstrip (t ++ [c]) = t ++ [c].
Proof.
  intros Hc. unfold rstrip. rewrite rev_app_distr. cbn [rev app].
  rewrite lstrip_nonspace_head by done.
  change (c :: rev t) with ([c] ++ rev t).
  by rewrite rev_app_distr, rev_involutive.
Qed.

Lemma word_head (w : list codepoint) :
  is_word w → ∃ c t, w = c :: t ∧ isspace c = false.
Proof.
  intros [Hne Hall]. destruct w as [|c t]; [done|].
  exists c, t. split; [done|]. by inversion Hall.
Qed.

Lemma word_last (w : list codepoint) :
  is_word w → ∃ c t, w = t ++ [c] ∧ isspace c = false.
Proof.
  intros [Hne Hall]. destruct (exists_last Hne) as (t & c & ->).
  exists c, t. split; [done|].
  apply Forall_app in Hall as [_ Hc]. by inversion Hc.
Qed.

Lemma join_words_head (ws : list (list codepoint)) :
  Forall is_word ws → ws ≠ [] →
  ∃ c t, join [space] ws = c :: t ∧ isspace c = false.
Proof.
  intros Hws Hne. destruct ws as [|w ws]; [done|].
  inversion Hws as [|? ? Hw _]; subst.
  destruct (word_head w Hw) as (c & t & -> & Hc).
  destruct ws as [|w' ws']; [by exists c, t|].
  exists c. eexists. split; [|exact Hc]. cbn [join].
  by rewrite <- app_comm_cons.
Qed.

Lemma join_words_last (ws : list (list codepoint)) :
  Forall is_word ws → ws ≠ [] →
  ∃ c t, join [space] ws = t ++ [c] ∧ isspace c = false.
Proof.
  induction 1 as [|w ws Hw Hws IH]; [done|]. intros _.
  destruct ws as [|w' ws'].
  - cbn [join]. by apply word_last.
  - destruct IH as (c & t & Heq & Hc); [done|].
    exists c, (w ++ [space] ++ t). split; [|exact Hc].
    change (join [space] (w :: w' :: ws'))
      with (w ++ [space] ++ join [space] (w' :: ws')).
    rewrite Heq. by rewrite <- !app_assoc.
Qed.

(** A single-space join of words is already stripped. *)
Lemma strip_join (ws : list (list codepoint)) :
  Forall is_word ws →
  strip (join [space] ws) = join [space] ws.
Proof.
  intros Hws. destruct ws as [|w ws]; [done|].
  unfold strip.
  destruct (join_words_head (w :: ws) Hws) as (c & t & Heq & Hc); [done|].
  destruct (join_words_last (w :: ws) Hws) as (c' & t' & Heq' & Hc'); [done|].
  rewrite Heq, lstrip_nonspace_head, <- Heq by done.
  rewrite Heq'. by apply rstrip_nonspace_last.
Qed.

Lemma normalize_last_seen_idem (l : list codepoint) :
  normalize_last_seen (normalize_last_seen l) = normalize_last_seen l.
Proof.
  unfold normalize_last_seen.
  pose proof (findall_S_words (strip l)) as Hws.
  rewrite strip_join by done.
  by rewrite findall_S_join.
Qed.

End TextFacts.

(** ** Whitespace stripping *)

Module StripFacts.
Import Text TextFacts.

Lemma lstrip_no_lead (l : list codepoint) : no_lead (lstrip l).
Proof.
  induction l as [|c l IH]; [done|]. simpl.
  destruct (isspace c) eqn:Hc; [exact IH|exact Hc].
Qed.

Lemma lstrip_id (l : list codepoint) : no_lead l → lstrip l = l.
Proof. destruct l as [|c l]; [done|]. simpl. by intros ->. Qed.

Lemma lstrip_snoc (l : list codepoint) (c : codepoint) :
  isspace c = false → lstrip (l ++ [c]) = lstrip l ++ [c].
Proof.
  intros Hc. induction l as [|x l IH]; simpl.
  - by rewrite Hc.
  - destruct (isspace x); [exact IH|done].
Qed.

Lemma rstrip_cons (c : codepoint) (l : list codepoint) :
  isspace c = false → rstrip (c :: l) = c :: rstrip l.
Proof.
  intros Hc. unfold rstrip. cbn [rev]. rewrite lstrip_snoc by done.
  by rewrite rev_app_distr.
Qed.

Lemma rstrip_no_trail (l : list codepoint) : no_lead (rev (rstrip l)).
Proof. unfold rstrip. rewrite rev_involutive. apply lstrip_no_lead. Qed.

Lemma rstrip_no_lead (l : list codepoint) : no_lead l → no_lead (rstrip l).
Proof.
  destruct l as [|c l]; [done|]. simpl. intros Hc.
  by rewrite rstrip_cons.
Qed.

Lemma strip_id (l : list codepoint) :
  no_lead l → no_lead (rev l) → strip l = l.
Proof.
  intros H1 H2. unfold strip. rewrite (lstrip_id l H1).
  unfold rstrip. by rewrite (lstrip_id _ H2), rev_involutive.
Qed.

Lemma strip_idem (l : list codepoint) :
  strip (strip l) = strip l.
Proof.
  apply strip_id.
  - apply rstrip_no_lead, lstrip_no_lead.
  - apply rstrip_no_trail.
Qed.

Lemma lstrip_nil_iff (l : list codepoint) :
  lstrip l = [] ↔ Forall (λ c, isspace c = true) l.
Proof.
  induction l as [|c l IH]; simpl; [by split; [constructor|]|].
  destruct (isspace c) eqn:Hc.
  - rewrite IH. split; [by constructor|by inversion 1].
  - split; [done|]. inversion 1; congruence.
Qed.

Lemma strip_nil_iff (l : list codepoint) :
  strip l = [] ↔ Forall (λ c, isspace c = true) l.
Proof.
  rewrite <- lstrip_nil_iff. unfold strip.
  pose proof (lstrip_no_lead l) as Hl.
  destruct (lstrip l) as [|c t]; [done|].
  simpl in Hl. by rewrite rstrip_cons.
Qed.

Lemma findall_S_nil_iff (l : list codepoint) :
  findall_S l = [] ↔ Forall (λ c, isspace c = true) l.
Proof.
  induction l as [|c l IH]; [by split; [constructor|]|].
  rewrite findall_S_cons. destruct (isspace c) eqn:Hc.
  - rewrite IH. split; [by constructor|by inversion 1].
  - split; [|inversion 1; congruence].
    destruct l as [|d l']; [done|].
    destruct (isspace d); [done|]. by destruct (findall_S (d :: l')).
Qed.

Lemma join_words_nil_iff (ws : list (list codepoint)) :
  Forall is_word ws → join [space] ws = [] ↔ ws = [].
Proof.
  intros Hws. split; [|by intros ->].
  destruct ws as [|w ws]; [done|]. intros Hnil.
  destruct (join_words_head (w :: ws) Hws) as (c & t & Heq & _); [done|].
  congruence.
Qed.

Lemma normalize_last_seen_nil_iff (l : list codepoint) :
  normalize_last_seen l = [] ↔ Forall (λ c, isspace c = true) l.
Proof.
  unfold normalize_last_seen.
  rewrite join_words_nil_iff by apply findall_S_words.
  rewrite findall_S_nil_iff. split.
  - intros Hall. apply strip_nil_iff.
    pose proof (rstrip_no_lead (lstrip l) (lstrip_no_lead l)) as Hl.
    fold (strip l) in Hl.
    destruct (strip l) as [|c t]; [done|].
    simpl in Hl. inversion Hall; congruence.
  - intros Hall. apply strip_nil_iff in Hall. rewrite Hall. constructor.
Qed.

(** [strip] returns a trimmed text. *)
Lemma strip_trimmed (s : list codepoint) : trimmed (strip s).
Proof. apply strip_idem. Qed.

(** [strip] returns the empty text exactly on blank texts. *)
Lemma strip_empty_iff (s : list codepoint) : strip s = [] ↔ blank s.
Proof. apply strip_nil_iff. Qed.

Lemma normalize_last_seen_trimmed (s : list codepoint) :
  trimmed (normalize_last_seen s).
Proof. apply strip_join, findall_S_words. Qed.

Lemma normalize_last_seen_empty_iff (s : list codepoint) :
  normalize_last_seen s = [] ↔ blank s.
Proof. apply normalize_last_seen_nil_iff. Qed.

(** The encoding of a text is empty exactly when the text is. *)
Lemma utf8_nonempty (c : codepoint) : utf8 c ≠ [].
Proof. unfold utf8. by repeat case_match. Qed.

Lemma encode_empty_iff (s : list codepoint) : encode s = "" ↔ s = [].
Proof.
  split; [|by intros ->]. destruct s as [|c s]; [done|].
  unfold encode. cbn [mbind list_bind]. pose proof (utf8_nonempty c) as Hc.
  by destruct (utf8 c).
Qed.

End StripFacts.

(** ** Timestamps *)

Module TimeFacts.
Import Text.

Lemma digit_is_digit (n : Z) : is_digit (digit n) = true.
Proof.
  unfold digit. pose proof (Z.mod_pos_bound n 10 ltac:(lia)) as Hm.
  assert (n mod 10 = 0 ∨ n mod 10 = 1 ∨ n mod 10 = 2 ∨ n mod 10 = 3 ∨
          n mod 10 = 4 ∨ n mod 10 = 5 ∨ n mod 10 = 6 ∨ n mod 10 = 7 ∨
          n mod 10 = 8 ∨ n mod 10 = 9) as Hcases by lia.
  repeat (destruct Hcases as [-> | Hcases]; [reflexivity|]).
  by rewrite Hcases.
Qed.

(** The format always has the shape [YYYY-MM-DD HH:MM]. *)
Lemma strftime_shape (t : datetime) : is_timestamp (strftime t) = true.
Proof.
  unfold is_timestamp, strftime, pad4, pad2.
  lazy -[digit is_digit Z.div andb].
  by rewrite !digit_is_digit.
Qed.

(** For the values a [datetime] holds, the padded fields are the decimal
    numerals, with zeros in front. *)
Lemma pad2_decimal (n : Z) :
  0 ≤ n ≤ 99 →
  pad2 n = if n <? 10 then "0" +:+ str_of_int n else str_of_int n.
Proof.
  intros Hn.
  assert (Hall : forallb (λ k,
            String.eqb (pad2 k)
              (if k <? 10 then "0" +:+ str_of_int k else str_of_int k))
            (seqZ 0 100) = true)
    by (vm_compute; reflexivity).
  rewrite forallb_forall in Hall.
  apply String.eqb_eq, Hall, list_elem_of_In, elem_of_seqZ. lia.
Qed.

Lemma pad4_decimal (n : Z) : 1000 ≤ n ≤ 9999 → pad4 n = str_of_int n.
Proof.
  intros Hn.
  assert (Hall : forallb (λ k, String.eqb (pad4 k) (str_of_int k))
            (seqZ 1000 9000) = true)
    by (vm_compute; reflexivity).
  rewrite forallb_forall in Hall.
  apply String.eqb_eq, Hall, list_elem_of_In, elem_of_seqZ. lia.
Qed.

End TimeFacts.

(** ** Computations: sequencing and frame rules *)

Section MonadFacts.
Context `{Ext : Externals}.

Lemma bind_ok {A B} (c : M A) (k : A → M B) (w w1 : World) (a : A) :
  c w = (Ok a, w1) → bind c k w = k a w1.
Proof. unfold bind. by intros ->. Qed.

Lemma bind_raise {A B} (c : M A) (k : A → M B) (w w1 : World) (e : exn) :
  c w = (Raise e, w1) → bind c k w = (Raise e, w1).
Proof. unfold bind. by intros ->. Qed.

Lemma bind_ok_inv {A B} (c : M A) (k : A → M B) (w w' : World) (b : B) :
  bind c k w = (Ok b, w') →
  ∃ a w1, c w = (Ok a, w1) ∧ k a w1 = (Ok b, w').
Proof.
  unfold bind. destruct (c w) as [[a|e] w1]; [|done]. intros Hk. by exists a, w1.
Qed.

Lemma respects_ret (R : World → World → Prop) `{!Reflexive R} {A} (a : A) :
  respects R (ret a).
Proof. intros w. simpl. reflexivity. Qed.

Lemma respects_raise (R : World → World → Prop) `{!Reflexive R} {A} (e : exn) :
  respects R (raise (A := A) e).
Proof. intros w. simpl. reflexivity. Qed.

Lemma respects_of_result (R : World → World → Prop) `{!Reflexive R} {A}
    (r : result A) : respects R (of_result r).
Proof. intros w. simpl. reflexivity. Qed.

Lemma respects_bind (R : World → World → Prop) `{!Transitive R} {A B}
    (c : M A) (k : A → M B) :
  respects R c → (∀ a, respects R (k a)) → respects R (bind c k).
Proof.
  intros Hc Hk w. unfold bind. specialize (Hc w).
  destruct (c w) as [[a|e] w1]; simpl in *; [|done].
  etrans; [exact Hc|apply Hk].
Qed.

(** The same, when only the values the first part returns matter. *)
Lemma respects_bind_post (R : World → World → Prop) `{!Transitive R} {A B}
    (Q : A → Prop) (c : M A) (k : A → M B) :
  respects R c →
  (∀ w a w', c w = (Ok a, w') → Q a) →
  (∀ a, Q a → respects R (k a)) →
  respects R (bind c k).
Proof.
  intros Hc HQ Hk w. unfold bind. specialize (Hc w). specialize (HQ w).
  destruct (c w) as [[a|e] w1]; simpl in *; [|done].
  etrans; [exact Hc|]. apply Hk. by eapply HQ.
Qed.

Lemma respects_weaken (R R' : World → World → Prop) {A} (c : M A) :
  (∀ w w', R w w' → R' w w') → respects R c → respects R' c.
Proof. intros HR Hc w. apply HR, Hc. Qed.

#[export] Instance store_untouched_refl : Reflexive store_untouched.
Proof. by intros w. Qed.

#[export] Instance store_untouched_trans : Transitive store_untouched.
Proof.
  intros w1 w2 w3 (?&?&?&?) (?&?&?&?). unfold store_untouched.
  repeat split; congruence.
Qed.

#[export] Instance files_kept_refl : Reflexive files_kept.
Proof. by intros w. Qed.

#[export] Instance files_kept_trans : Transitive files_kept.
Proof. unfold files_kept. intros w1 w2 w3 ??. congruence. Qed.

#[export] Instance trace_grows_refl (P : event → Prop) : Reflexive (trace_grows P).
Proof. intros w. split; [|done]. by exists []. Qed.

#[export] Instance trace_grows_trans (P : event → Prop) : Transitive (trace_grows P).
Proof.
  intros w1 w2 w3 [(d1 & H1 & F1) Hr1] [(d2 & H2 & F2) Hr2]. split; [|congruence].
  exists (d2 ++ d1). rewrite H2, H1, app_assoc. split; [done|].
  by apply Forall_app.
Qed.

End MonadFacts.

(** ** Frame properties of the program's parts *)

Create HintDb frame discriminated.

#[export] Hint Extern 1 (respects _ (of_result _)) =>
  apply respects_of_result; apply _ : frame.

Ltac frame_step :=
  lazymatch goal with
  | |- respects _ (bind _ _) => apply respects_bind; [apply _ | | intros ?]
  | |- respects _ (ret _) => apply respects_ret; apply _
  | |- respects _ (raise _) => apply respects_raise; apply _
  | |- respects _ (of_result _) => apply respects_of_result; apply _
  | |- respects _ (match ?x with _ => _ end) => destruct x
  | |- respects _ _ => solve [eauto with frame]
  end.

Ltac frame := repeat frame_step.

Section FrameFacts.
Context `{Ext : Externals}.

(** *** Parts that leave the store alone *)

Lemma emit_store (e : event) : respects store_untouched (emit e).
Proof. by intros w. Qed.

Lemma alloc_store (cls : string) : respects store_untouched (alloc cls).
Proof. by intros w. Qed.

Lemma load_dotenv_store : respects store_untouched load_dotenv.
Proof. by intros w. Qed.

Lemma getenv_store (k : string) : respects store_untouched (getenv k).
Proof. by intros w. Qed.

Lemma utcnow_store : respects store_untouched utcnow.
Proof. by intros w. Qed.

Lemma requests_get_store (url : string) (ua : option string) :
  respects store_untouched (requests_get url ua).
Proof. by intros w. Qed.

Lemma getitem_store (d : dict) (k : string) : respects store_untouched (getitem d k).
Proof. unfold getitem. frame. Qed.

Lemma p_text_store (soup : list node) (cls : string) :
  respects store_untouched (p_text soup cls).
Proof. unfold p_text. frame. Qed.

Hint Resolve emit_store alloc_store load_dotenv_store getenv_store utcnow_store
  requests_get_store getitem_store p_text_store : frame.

Lemma print_store (s : string) : respects store_untouched (print s).
Proof. unfold print. frame. Qed.

Lemma asyncio_sleep_store (n : Z) : respects store_untouched (asyncio_sleep n).
Proof. unfold asyncio_sleep. frame. Qed.

Lemma USPS_get_url_store (base : string) (tn : option string) :
  respects store_untouched (USPS_get_url base tn).
Proof. unfold USPS_get_url. frame. Qed.

Hint Resolve print_store asyncio_sleep_store USPS_get_url_store : frame.

Lemma USPS_init_store : respects store_untouched USPS_init.
Proof. unfold USPS_init. frame. Qed.

Lemma USPS_data_store (s : USPS) : respects store_untouched (USPS_data s).
Proof.
  unfold USPS_data, USPS_tracking_number, USPS_parse_content, USPS_parse_status,
    USPS_parse_detail, USPS_parse_location, USPS_parse_last_seen.
  frame.
Qed.

Lemma Fetch_init_store {S} (s : S) : respects store_untouched (Fetch_init s).
Proof. unfold Fetch_init. frame. Qed.

End FrameFacts.

(** ** The record store *)

(** Unfold the store operations and evaluate them as far as the state is
    known. *)
Ltac unfold_store :=
  unfold Database_insert, Database_update, Database_delete, Database_exit,
    Database_enter, Database_construct, Database_init, with_connection,
    with_Database, set_name, attr_name, set_conn, attr_conn, set_cursor,
    attr_cursor, Database_obj, sqlite3_connect, alloc, Cursor_execute,
    Connection_commit, Connection_rollback, Connection_close, open_connection,
    bind, ret, raise, visible_state.

Ltac use_known :=
  repeat match goal with
    | H : ?m !! ?k = _ |- context [?m !! ?k] => rewrite H
    | H : c_open ?k = _ |- context [c_open ?k] => rewrite H
    | H : c_tx ?k = _ |- context [c_tx ?k] => rewrite H
    end.

Ltac eval_store :=
  repeat (progress (cbn; rewrite ?lookup_insert_eq; use_known)).

Section StoreFacts.
Context `{Ext : Externals}.

(** What a successful [__init__] leaves: the three attributes are set,
    the cursor is on the new connection, the connection is open without a
    pending transaction, and the schema statement is committed. *)
Lemma Database_init_ok (self : nat) (name sql : option string) (w w' : World) :
  Database_init self name sql w = (Ok tt, w') →
  ∃ nm q o d,
    name = Some nm ∧ Text.endswith nm ext = true ∧ sql = Some q ∧
    databases w !! self = Some o ∧
    sql_exec q None (default empty_db (files w !! nm)) = Ok d ∧
    databases w' =
      <[self := {| name := Some nm; conn := Some (next_oid w);
                   cursor := Some (next_oid w) |}]> (databases w) ∧
    connections w' =
      <[next_oid w := {| c_file := nm; c_open := true; c_tx := None |}]>
        (connections w) ∧
    files w' = <[nm := d]> (files w) ∧
    next_oid w' = S (next_oid w) ∧
    Database_instance w' = Database_instance w.
Proof.
  unfold_store.
  destruct name as [nm|]; [|intros [=]].
  destruct (Text.endswith nm ext) eqn:Hext; [|intros [=]]. cbn [negb].
  destruct (databases w !! self) as [o|] eqn:Ho; [|intros [=]].
  destruct sql as [q|]; [|eval_store; intros [=]].
  eval_store.
  destruct (sql_exec q None (default empty_db (files w !! nm))) as [d|e] eqn:Hexec;
    [|intros [=]].
  destruct (is_dml q) eqn:Hdml; eval_store; intros [= <-];
    exists nm, q, o, d; cbn; rewrite !insert_insert_eq; done.
Qed.

(** [__init__] with a name that lacks the extension raises before any
    effect. *)
Lemma Database_init_bad_name (self : nat) (nm : string) (sql : option string)
    (w : World) :
  Text.endswith nm ext = false →
  Database_init self (Some nm) sql w =
  (Raise (ValueError (nm +:+ " must end with " +:+ ext)), w).
Proof. intros Hext. unfold Database_init. by rewrite Hext. Qed.

Lemma Database_new_existing (i : nat) (w : World) :
  Database_instance w = Some i → Database_new w = (Ok i, w).
Proof. unfold Database_new. by intros ->. Qed.

Lemma Database_new_first (w : World) :
  Database_instance w = None →
  ∃ w', Database_new w = (Ok (next_oid w), w') ∧
        Database_instance w' = Some (next_oid w) ∧
        databases w' !! next_oid w =
          Some {| name := None; conn := None; cursor := None |} ∧
        files w' = files w ∧ connections w' = connections w.
Proof.
  unfold Database_new. intros ->. eexists. split; [reflexivity|].
  cbn. by rewrite lookup_insert_eq.
Qed.

(** The instance that [__new__] returns is recorded in the class. *)
Lemma Database_new_instance (i : nat) (w w' : World) :
  Database_new w = (Ok i, w') → Database_instance w' = Some i.
Proof.
  unfold Database_new. destruct (Database_instance w) as [j|] eqn:Hi.
  - by intros [= <- <-].
  - cbn. by intros [= <- <-].
Qed.

Lemma Database_new_total (w : World) : ∃ i w', Database_new w = (Ok i, w').
Proof.
  unfold Database_new. destruct (Database_instance w); cbn; eauto.
Qed.

(** After a successful construction the object is the class instance,
    its cursor is on its connection, and the connection is open. *)
Lemma Database_construct_ok (name sql : option string) (i : nat) (w w' : World) :
  Database_construct name sql w = (Ok i, w') →
  Database_instance w' = Some i ∧
  ∃ nm c,
    name = Some nm ∧
    databases w' !! i = Some {| name := Some nm; conn := Some c; cursor := Some c |} ∧
    connections w' !! c = Some {| c_file := nm; c_open := true; c_tx := None |} ∧
    next_oid w' = S c.
Proof.
  unfold Database_construct. intros H.
  apply bind_ok_inv in H as (j & w1 & Hnew & H).
  apply bind_ok_inv in H as ([] & w2 & Hinit & H).
  injection H as <- <-.
  pose proof (Database_new_instance _ _ _ Hnew) as Hinst.
  apply Database_init_ok in Hinit
    as (nm & q & o & d & -> & _ & _ & _ & _ & Hdb & Hcn & _ & Hnext & Hi).
  split; [congruence|]. exists nm, (next_oid w1).
  rewrite Hdb, Hcn, !lookup_insert_eq. done.
Qed.

(** A write operation is atomic. *)
Lemma Database_insert_atomic (self : nat) (sql : option string) (data : dict)
    (w : World) :
  cursor_on_conn w self →
  atomic_outcome self sql data w (Database_insert self sql data w).
Proof.
  unfold cursor_on_conn, atomic_outcome. intros Hinv.
  unfold_store.
  destruct (databases w !! self) as [[nm cn cur]|] eqn:Ho; [|by eval_store].
  specialize (Hinv _ eq_refl). cbn in Hinv. subst cur.
  destruct cn as [c|]; [|by eval_store].
  destruct (connections w !! c) as [k|] eqn:Hc;
    [|by destruct sql; eval_store].
  destruct (c_open k) eqn:Hopen; [|by destruct sql; eval_store].
  destruct sql as [q|]; [|by eval_store].
  eval_store.
  destruct (c_tx k) as [d0|] eqn:Htx.
  - eval_store.
    destruct (sql_exec q (Some data) d0) as [d|e] eqn:Hexec; [|by eval_store].
    eval_store. exists c, k, q, d. unfold visible_state. eval_store.
    repeat split; try done. eexists. done.
  - eval_store.
    destruct (sql_exec q (Some data) (default empty_db (files w !! c_file k)))
      as [d|e] eqn:Hexec; [|by eval_store].
    destruct (is_dml q) eqn:Hdml; eval_store.
    + exists c, k, q, d. unfold visible_state. eval_store.
      repeat split; try done. eexists. done.
    + exists c, k, q, d. unfold visible_state. eval_store.
      repeat split; try done. eexists. done.
Qed.

(** On a closed connection a write raises and changes nothing. *)
Lemma Database_insert_closed (self : nat) (sql : option string) (data : dict)
    (w : World) (nm : option string) (c : nat) :
  databases w !! self = Some {| name := nm; conn := Some c; cursor := Some c |} →
  fst (open_connection c w) = Raise (ProgrammingError closed_msg) →
  Database_insert self sql data w = (Raise (ProgrammingError closed_msg), w).
Proof.
  intros Ho Hclosed. unfold open_connection in Hclosed. unfold_store.
  destruct (connections w !! c) as [k|] eqn:Hc.
  - destruct (c_open k) eqn:Hopen; [done|]. by destruct sql; eval_store.
  - by destruct sql; eval_store.
Qed.

End StoreFacts.

(** ** Construction of the application *)

Section AppFacts.
Context `{Ext : Externals}.

(** A successful [App.__init__] built the strategy, constructed the
    store, and then left the [with] block, which closed the connection. *)
Lemma App_init_ok (ds : string) (w w' : World) (app : App) :
  App_init ds w = (Ok app, w') →
  ∃ w1 w2 w3,
    Text.match_us ds = true ∧
    USPS_init (snd (load_dotenv w)) = (Ok (delivery_service app), w1) ∧
    Database_construct (environ w1 !! "DB_NAME") (environ w1 !! "CREATE_TABLE") w1
      = (Ok (database app), w2) ∧
    Database_exit (database app) w2 = (Ok tt, w3) ∧ w' = w3.
Proof.
  unfold App_init. intros H.
  apply bind_ok_inv in H as ([] & w0 & Hload & H).
  apply bind_ok_inv in H as (usps & w1 & Husps & H).
  apply bind_ok_inv in H as (nm & w1' & Hnm & H).
  apply bind_ok_inv in H as (sql & w1'' & Hsql & H).
  apply bind_ok_inv in H as (mgr & w2 & Hcons & H).
  unfold getenv in Hnm, Hsql. injection Hnm as <- <-. injection Hsql as <- <-.
  unfold load_dotenv in Hload. injection Hload as <-.
  unfold with_Database, Database_enter, bind, ret in H. cbn in H.
  destruct (Database_exit mgr w2) as [[[]|e] w3] eqn:Hexit; [|done].
  injection H as <- <-. cbn.
  destruct (Text.match_us ds); [|done].
  exists w1, w2, w3. done.
Qed.

Lemma App_init_closed (ds : string) (w w' : World) (app : App) :
  App_init ds w = (Ok app, w') →
  ∃ nm c,
    Database_instance w' = Some (database app) ∧
    databases w' !! database app =
      Some {| name := Some nm; conn := Some c; cursor := Some c |} ∧
    connections w' !! c = Some {| c_file := nm; c_open := false; c_tx := None |}.
Proof.
  intros H. apply App_init_ok in H as (w1 & w2 & w3 & _ & _ & Hcons & Hexit & ->).
  apply Database_construct_ok in Hcons as (Hinst & nm & c & _ & Hdb & Hcn & _).
  exists nm, c. revert Hexit. unfold_store. eval_store.
  intros [= <-]. eval_store. done.
Qed.

End AppFacts.
#[export] Hint Resolve emit_store alloc_store load_dotenv_store getenv_store
  utcnow_store requests_get_store getitem_store p_text_store print_store
  asyncio_sleep_store USPS_get_url_store USPS_init_store USPS_data_store
  Fetch_init_store : frame.

(** ** The trace of the loop *)

Ltac trace_prim :=
  let w := fresh "w" in
  intros w; cbn; repeat case_match; cbn;
  (split; [by exists [] | done]).

Section TraceFacts.
Context `{Ext : Externals}.
Variable P : event → Prop.

Lemma emit_trace (e : event) : P e → respects (trace_grows P) (emit e).
Proof.
  intros He w. cbn. split; [|done]. exists [e]. split; [done|]. by constructor.
Qed.

Lemma alloc_trace (cls : string) :
  (∀ o, P (EvAlloc cls o)) → respects (trace_grows P) (alloc cls).
Proof.
  intros He w. cbn. split; [|done]. exists [EvAlloc cls (next_oid w)].
  split; [done|]. by constructor.
Qed.

Lemma getenv_trace (k : string) : respects (trace_grows P) (getenv k).
Proof. trace_prim. Qed.

Lemma utcnow_trace : respects (trace_grows P) utcnow.
Proof. trace_prim. Qed.

Lemma getitem_trace (d : dict) (k : string) : respects (trace_grows P) (getitem d k).
Proof. unfold getitem. frame. Qed.

Lemma p_text_trace (soup : list node) (cls : string) :
  respects (trace_grows P) (p_text soup cls).
Proof. unfold p_text. frame. Qed.

Lemma Database_obj_trace (self : nat) : respects (trace_grows P) (Database_obj self).
Proof. unfold Database_obj. trace_prim. Qed.

Lemma open_connection_trace (c : nat) : respects (trace_grows P) (open_connection c).
Proof. unfold open_connection. trace_prim. Qed.

Hint Resolve getenv_trace utcnow_trace getitem_trace p_text_trace
  Database_obj_trace open_connection_trace : frame.

Lemma attr_conn_trace (self : nat) : respects (trace_grows P) (attr_conn self).
Proof. unfold attr_conn. frame. Qed.

Lemma attr_cursor_trace (self : nat) : respects (trace_grows P) (attr_cursor self).
Proof. unfold attr_cursor. frame. Qed.

Lemma Cursor_execute_trace (c : nat) (sql : option string) (params : option dict) :
  respects (trace_grows P) (Cursor_execute c sql params).
Proof. unfold Cursor_execute. frame; try trace_prim. Qed.

Lemma Connection_commit_trace (c : nat) :
  respects (trace_grows P) (Connection_commit c).
Proof. unfold Connection_commit. frame; try trace_prim. Qed.

Lemma Connection_rollback_trace (c : nat) :
  respects (trace_grows P) (Connection_rollback c).
Proof. unfold Connection_rollback. frame; try trace_prim. Qed.

Lemma with_connection_trace {A} (c : nat) (body : M A) :
  respects (trace_grows P) body →
  respects (trace_grows P) (with_connection c body).
Proof.
  intros Hbody w. unfold with_connection. specialize (Hbody w).
  destruct (body w) as [[a|e] w1]; cbn in Hbody.
  - pose proof (Connection_commit_trace c w1) as Hc.
    destruct (Connection_commit c w1) as [[?|e] w2]; cbn in *.
    + by etrans.
    + pose proof (Connection_rollback_trace c w2) as Hr.
      etrans; [exact Hbody|]. by etrans.
  - pose proof (Connection_rollback_trace c w1) as Hr.
    destruct (Connection_rollback c w1) as [[?|e'] w2]; cbn in *; by etrans.
Qed.

Hint Resolve attr_conn_trace attr_cursor_trace Cursor_execute_trace
  Connection_commit_trace Connection_rollback_trace with_connection_trace : frame.

Lemma Database_insert_trace (self : nat) (sql : option string) (data : dict) :
  respects (trace_grows P) (Database_insert self sql data).
Proof.
  unfold Database_insert. frame.
  apply with_connection_trace. frame.
Qed.

End TraceFacts.

#[export] Hint Resolve getenv_trace utcnow_trace getitem_trace p_text_trace
  attr_conn_trace attr_cursor_trace Cursor_execute_trace Connection_commit_trace
  Connection_rollback_trace with_connection_trace Database_insert_trace : frame.

(** ** The loop *)

Section CycleFacts.
Context `{Ext : Externals}.

Lemma bind_raise_inv {A B} (c : M A) (k : A → M B) (w w' : World) (e : exn) :
  bind c k w = (Raise e, w') →
  c w = (Raise e, w') ∨ ∃ a w1, c w = (Ok a, w1) ∧ k a w1 = (Raise e, w').
Proof.
  unfold bind. destruct (c w) as [[a|e1] w1]; intros Hk.
  - right. by exists a, w1.
  - left. by injection Hk as -> ->.
Qed.

Lemma Fetch_data_store (f : Fetch USPS) : respects store_untouched (Fetch_data f).
Proof. unfold Fetch_data. cbn. apply USPS_data_store. Qed.

Lemma cursor_on_conn_untouched (w w' : World) (self : nat) :
  store_untouched w w' → cursor_on_conn w self → cursor_on_conn w' self.
Proof. intros (_ & _ & Hdb & _) Hinv o. rewrite Hdb. apply Hinv. Qed.

(** [save_data] stamps the dict and hands it to [insert]. *)
Lemma App_save_data_eq (self : App) (data : dict) (w : World) :
  App_save_data self data w =
  Database_insert (database self) (environ w !! "INSERT_STATUS")
    (<["date" := strftime (utc_clock (clock_reads w))]> data)
    (with_clock_reads (S (clock_reads w)) w).
Proof.
  unfold App_save_data, dict_update, utcnow, getenv, bind. cbn.
  by rewrite insert_union_singleton_l.
Qed.

(** A step of a computation that failed, when the step leaves the store
    alone. *)
Lemma bind_raise_keeps {A B} (c : M A) (k : A → M B) (w0 w w' : World) (e : exn) :
  store_untouched w0 w →
  respects store_untouched c →
  (∀ a w1, store_untouched w0 w1 → k a w1 = (Raise e, w') → files w' = files w0) →
  bind c k w = (Raise e, w') → files w' = files w0.
Proof.
  intros Hw Hc Hk H. specialize (Hc w).
  apply bind_raise_inv in H as [H|(a & w1 & H & Hrest)]; rewrite H in Hc; cbn in Hc.
  - assert (store_untouched w0 w') as (? & _) by (by etrans). done.
  - apply (Hk a w1); [by etrans|done].
Qed.

(** A failing iteration leaves the committed contents as they were. *)
Lemma App_cycle_raise_files (self : App) (w w' : World) (e : exn) :
  cursor_on_conn w (database self) →
  App_cycle self w = (Raise e, w') → files w' = files w.
Proof.
  intros Hinv. unfold App_cycle.
  apply (bind_raise_keeps _ _ w w); [done|eauto with frame|].
  repeat (intros ? ? ?;
    lazymatch goal with
    | |- bind (App_save_data _ _) _ _ = _ → _ => fail
    | |- bind (of_result _) _ _ = _ → _ =>
        apply bind_raise_keeps; [done|apply respects_of_result; apply _|]
    | |- _ => apply bind_raise_keeps; [done|eauto using Fetch_data_store with frame|]
    end).
  intros message wi Hwi Hrun.
  apply bind_raise_inv in Hrun as [Hsave|([] & w12 & Hsave & Hrest)].
  - rewrite App_save_data_eq in Hsave.
    match type of Hsave with
    | Database_insert ?i ?q ?d ?v = _ =>
        pose proof (Database_insert_atomic i q d v) as Hat
    end.
    unfold atomic_outcome in Hat. rewrite Hsave in Hat. cbn in Hat.
    rewrite Hat; [by destruct Hwi|].
    intros o. cbn. destruct Hwi as (_ & _ & -> & _). apply Hinv.
  - by cbn in Hrest.
Qed.

End CycleFacts.

(** ** The strategy *)

Ltac unfold_usps :=
  unfold USPS_data, USPS_tracking_number, USPS_parse_content, USPS_parse_status,
    USPS_parse_detail, USPS_parse_location, USPS_parse_last_seen, p_text,
    emit, bind, ret, raise.

Section USPSFacts.
Context `{Ext : Externals}.

(** The snapshot when the five elements are present. *)
Lemma USPS_data_ok (s : USPS) (w : World) (nc ns nd nl nt : node) :
  find "p" "banner-content" (soup s) = Some nc →
  find "p" "tb-status" (soup s) = Some ns →
  find "p" "tb-status-detail" (soup s) = Some nd →
  find "p" "tb-location" (soup s) = Some nl →
  find "p" "tb-date" (soup s) = Some nt →
  USPS_data s w =
  (Ok (list_to_map
         [("tracking_number", _tracking_number s);
          ("content", Text.encode (Text.strip (get_text nc)));
          ("status", Text.encode (Text.strip (get_text ns)));
          ("detail", Text.encode (Text.strip (get_text nd)));
          ("location", Text.encode (Text.strip (get_text nl)));
          ("last_seen", Text.encode (Text.normalize_last_seen (get_text nt)))]),
   with_events (EvSnapshot (oid s) :: events w) w).
Proof.
  intros Hc Hs Hd Hl Ht. unfold_usps. by rewrite Hc, Hs, Hd, Hl, Ht.
Qed.

(** A snapshot is only returned when the five elements are present. *)
Lemma USPS_data_ok_inv (s : USPS) (w w' : World) (d : dict) :
  USPS_data s w = (Ok d, w') →
  ∃ nc ns nd nl nt,
    find "p" "banner-content" (soup s) = Some nc ∧
    find "p" "tb-status" (soup s) = Some ns ∧
    find "p" "tb-status-detail" (soup s) = Some nd ∧
    find "p" "tb-location" (soup s) = Some nl ∧
    find "p" "tb-date" (soup s) = Some nt ∧
    d = list_to_map
          [("tracking_number", _tracking_number s);
           ("content", Text.encode (Text.strip (get_text nc)));
           ("status", Text.encode (Text.strip (get_text ns)));
           ("detail", Text.encode (Text.strip (get_text nd)));
           ("location", Text.encode (Text.strip (get_text nl)));
           ("last_seen", Text.encode (Text.normalize_last_seen (get_text nt)))].
Proof.
  unfold_usps.
  destruct (find "p" "banner-content" (soup s)) as [nc|]; [|intros [=]].
  destruct (find "p" "tb-status" (soup s)) as [ns|]; [|intros [=]].
  destruct (find "p" "tb-status-detail" (soup s)) as [nd|]; [|intros [=]].
  destruct (find "p" "tb-location" (soup s)) as [nl|]; [|intros [=]].
  destruct (find "p" "tb-date" (soup s)) as [nt|]; [|intros [=]].
  intros [= <- _]. by exists nc, ns, nd, nl, nt.
Qed.

(** Whatever it returns, the snapshot adds its event to the trace and
    changes nothing else; what it returns does not depend on the state. *)
Lemma USPS_data_snd (s : USPS) (w : World) :
  snd (USPS_data s w) = with_events (EvSnapshot (oid s) :: events w) w.
Proof.
  unfold_usps.
  by repeat (lazymatch goal with
             | |- context [find ?a ?b ?c] => destruct (find a b c)
             end).
Qed.

Lemma USPS_data_fst (s : USPS) (w w0 : World) :
  fst (USPS_data s w) = fst (USPS_data s w0).
Proof.
  unfold_usps.
  by repeat (lazymatch goal with
             | |- context [find ?a ?b ?c] => destruct (find a b c)
             end).
Qed.

(** The keys of a snapshot. *)
Lemma snapshot_dom (a b c d e f : string) :
  dom (list_to_map (M := dict)
         [("tracking_number", a); ("content", b); ("status", c);
          ("detail", d); ("location", e); ("last_seen", f)])
  = snapshot_keys.
Proof. cbn. rewrite !dom_insert_L, dom_empty_L. unfold snapshot_keys. set_solver. Qed.

(** The strategy's trace: one snapshot event of its own. *)
Lemma USPS_data_trace (P : event → Prop) (s : USPS) :
  P (EvSnapshot (oid s)) → respects (trace_grows P) (USPS_data s).
Proof.
  intros HP. unfold USPS_data, USPS_tracking_number, USPS_parse_content,
    USPS_parse_status, USPS_parse_detail, USPS_parse_location,
    USPS_parse_last_seen.
  apply respects_bind; [apply _|by apply emit_trace|]. intros _. frame.
Qed.

(** What the constructor does with the response. *)
Lemma USPS_get_url_eq (base tn : string) (w : World) :
  USPS_get_url base (Some tn) w =
  let w' := with_events (EvRequest (base +:+ tn) (environ w !! "USER_AGENT") :: events w)
              (with_requests_sent (S (requests_sent w)) w) in
  match http_get (requests_sent w) (base +:+ tn) (environ w !! "USER_AGENT") with
  | Ok r =>
      if Response_ok r then (Ok r, w')
      else (Raise (Exception ("Error: " +:+ Text.str_of_int (status_code r))), w')
  | Raise e => (Raise e, w')
  end.
Proof.
  unfold USPS_get_url, getenv, requests_get, bind, ret, raise. cbn.
  destruct (http_get _ _ _) as [r|e]; [|done]. by destruct (Response_ok r).
Qed.

End USPSFacts.

(** ** The stated properties *)

Section Claims.
Context `{Ext : Externals}.


(** C7.  The whitespace normalization of [parse_last_seen] (strip the
    text of the date element, split it on whitespace runs, rejoin with
    single spaces) is idempotent on every text: normalizing a normalized
    text changes nothing.  The text with a newline and two spaces inside
    and the text with a single space both normalize to the latter; a
    no-break space, an em space and a next-line character are whitespace
    as well. *)
Theorem last_seen_normalization_idempotent :
  (∀ s : list Text.codepoint,
     Text.normalize_last_seen (Text.normalize_last_seen s)
     = Text.normalize_last_seen s) ∧
  Text.normalize_last_seen
    (Text.codepoints ("Nov 3, 2023" +:+ String "010" "  10:15 AM"))
    = Text.codepoints "Nov 3, 2023 10:15 AM" ∧
  Text.normalize_last_seen (Text.codepoints "Nov 3, 2023 10:15 AM")
    = Text.codepoints "Nov 3, 2023 10:15 AM" ∧
  Text.normalize_last_seen [160; 78; 111; 118; 8195; 160; 51; 133]%N
    = [78; 111; 118; 32; 51]%N ∧
  (∀ self : USPS,
     USPS_parse_last_seen self =
     (let! t := p_text (soup self) "tb-date" in
      ret (Text.encode (Text.normalize_last_seen t)))).
Proof.
  split; [exact TextFacts.normalize_last_seen_idem|].
  split; [vm_compute; reflexivity|].
  split; [vm_compute; reflexivity|].
  split; [vm_compute; reflexivity|].
  intros self. reflexivity.
Qed.

(** C8.  [save_data] hands to [insert] the snapshot with one more key,
    [date]: the stamped dict has the six snapshot keys and [date] (seven
    keys), the value of [date] is the clock reading in the format
    [YYYY-MM-DD HH:MM], and the six snapshot values are unchanged. *)
Theorem save_data_stamps_snapshot (self : App) (s : USPS) (data : dict)
    (w0 w1 w : World) :
  USPS_data s w0 = (Ok data, w1) →
  let ts := strftime (utc_clock (clock_reads w)) in
  let stamped := <["date" := ts]> data in
  App_save_data self data w =
    Database_insert (database self) (environ w !! "INSERT_STATUS") stamped
      (with_clock_reads (S (clock_reads w)) w) ∧
  dom data = snapshot_keys ∧
  dom stamped = snapshot_keys ∪ {["date"]} ∧
  size stamped = 7%nat ∧
  stamped !! "date" = Some ts ∧
  Text.is_timestamp ts = true ∧
  (∀ k, k ∈ snapshot_keys → stamped !! k = data !! k).
Proof.
  intros Hdata ts stamped.
  apply USPS_data_ok_inv in Hdata as (nc & ns & nd & nl & nt & _ & _ & _ & _ & _ & ->).
  split; [apply App_save_data_eq|].
  split; [apply snapshot_dom|].
  assert (Hdom : dom stamped = snapshot_keys ∪ {["date"]}).
  { unfold stamped. rewrite dom_insert_L, snapshot_dom. set_solver. }
  split; [exact Hdom|].
  split.
  { rewrite <- size_dom, Hdom. by vm_compute. }
  split; [apply lookup_insert_eq|].
  split; [apply TimeFacts.strftime_shape|].
  intros k Hk. unfold stamped. apply lookup_insert_ne.
  intros <-. revert Hk. apply (bool_decide_unpack _). by vm_compute.
Qed.

(** C10.  Each write operation of the store is atomic.  When [insert],
    [update] or [delete] raises, the committed contents of the files are
    what they were; when it returns, the statement was run on the
    contents visible to the open connection, its result is the committed
    contents of the connection's file, and no transaction is left open.
    (For a store object whose cursor is on its own connection, as
    [__init__] sets it.) *)
Theorem store_writes_are_atomic (self : nat) (sql : option string) (data : dict)
    (w : World) :
  cursor_on_conn w self →
  atomic_outcome self sql data w (Database_insert self sql data w) ∧
  atomic_outcome self sql data w (Database_update self sql data w) ∧
  atomic_outcome self sql data w (Database_delete self sql data w).
Proof.
  intros Hinv. repeat split; by apply Database_insert_atomic.
Qed.

(** C4.  A failing parse makes the iteration fail before anything is
    stored.  When the snapshot of the facade that the iteration builds
    raises (the facade's [data] runs the five parse operations),
    [App_cycle] raises the same exception in the state the snapshot left:
    [save_data] is not reached, so the clock is not read and the store is
    untouched (files, connections, store objects), and the trace holds
    the allocation of the facade and the snapshot event only. *)
Theorem failing_cycle_persists_nothing (self : App) (w wf w1 : World)
    (fetch : Fetch USPS) (e : exn) :
  Fetch_init (delivery_service self) w = (Ok fetch, wf) →
  Fetch_data fetch wf = (Raise e, w1) →
  App_cycle self w = (Raise e, w1) ∧
  store_untouched w w1 ∧
  files w1 = files w ∧
  clock_reads w1 = clock_reads w ∧
  events w1 = EvSnapshot (oid (delivery_service self))
              :: EvAlloc "Fetch" (fetch_oid fetch) :: events w.
Proof.
  intros Hf Hd.
  split.
  { unfold App_cycle. by rewrite (bind_ok _ _ _ _ _ Hf), (bind_raise _ _ _ _ _ Hd). }
  assert (Hst : store_untouched w w1).
  { pose proof (Fetch_init_store (delivery_service self) w) as H1.
    pose proof (Fetch_data_store fetch wf) as H2.
    rewrite Hf in H1. rewrite Hd in H2. cbn in *. by etrans. }
  split; [exact Hst|]. split; [by destruct Hst|].
  unfold Fetch_init, alloc, bind, ret in Hf. injection Hf as <- <-.
  unfold Fetch_data in Hd. cbn [data USPS_FetchStrategy strategy] in Hd.
  pose proof (USPS_data_snd (delivery_service self)
    (with_events (EvAlloc "Fetch" (next_oid w) :: events w)
       (with_next_oid (S (next_oid w)) w))) as Hsnd.
  rewrite Hd in Hsnd. cbn in Hsnd. subst w1. by destruct w.
Qed.

(** A step of a computation that must fail, when the step leaves the
    store alone. *)
Lemma bind_must_raise {A B} (c : M A) (k : A → M B) (w0 w : World) :
  store_untouched w0 w →
  respects store_untouched c →
  (∀ a w1, store_untouched w0 w1 →
     ∃ e w', k a w1 = (Raise e, w') ∧ files w' = files w0) →
  ∃ e w', bind c k w = (Raise e, w') ∧ files w' = files w0.
Proof.
  intros Hw Hc Hk. specialize (Hc w). unfold bind.
  destruct (c w) as [[a|e] w1]; cbn in Hc.
  - apply Hk. by etrans.
  - exists e, w1. split; [done|].
    assert (store_untouched w0 w1) as (? & _) by (by etrans). done.
Qed.

(** With the connection of the store closed, [save_data] raises. *)
Lemma App_save_data_closed (self : App) (data : dict) (w : World)
    (nm : option string) (c : nat) :
  databases w !! database self =
    Some {| name := nm; conn := Some c; cursor := Some c |} →
  fst (open_connection c w) = Raise (ProgrammingError closed_msg) →
  App_save_data self data w =
  (Raise (ProgrammingError closed_msg), with_clock_reads (S (clock_reads w)) w).
Proof.
  intros Ho Hclosed. rewrite App_save_data_eq.
  apply (Database_insert_closed _ _ _ _ nm c); [exact Ho|].
  unfold open_connection in *. cbn.
  destruct (connections w !! c) as [k|]; [destruct (c_open k)|]; done.
Qed.

(** With the connection of the store closed, an iteration raises. *)
Lemma App_cycle_closed (self : App) (w : World) (nm : option string) (c : nat) :
  databases w !! database self =
    Some {| name := nm; conn := Some c; cursor := Some c |} →
  fst (open_connection c w) = Raise (ProgrammingError closed_msg) →
  ∃ e w', App_cycle self w = (Raise e, w') ∧ files w' = files w.
Proof.
  intros Ho Hclosed. unfold App_cycle.
  apply (bind_must_raise _ _ w w); [done|eauto with frame|].
  repeat (intros ? ? ?;
    lazymatch goal with
    | |- ∃ _ _, bind (App_save_data _ _) _ _ = _ ∧ _ => fail
    | |- ∃ _ _, bind (of_result _) _ _ = _ ∧ _ =>
        apply bind_must_raise; [done|apply respects_of_result; apply _|]
    | |- _ => apply bind_must_raise; [done|eauto using Fetch_data_store with frame|]
    end).
  intros message wi (Hf & Hcn & Hdb & _).
  eexists _, _. split.
  - apply bind_raise, (App_save_data_closed _ _ _ nm c).
    + by rewrite Hdb.
    + unfold open_connection in *. rewrite Hcn.
      destruct (connections w !! c) as [k|]; [destruct (c_open k)|]; done.
  - done.
Qed.

(** C1.  What the code does: [App.__init__] leaves its [with] block
    before it returns, so the connection of the store it keeps is already
    closed when the loop starts.  In the state a successful construction
    leaves, the connection of [self.database] cannot be operated on,
    [save_data] raises [ProgrammingError] for every snapshot and stores
    nothing, and the loop ends in its first iteration. *)
Theorem connection_closed_when_loop_starts (ds : string) (w w' : World) (app : App) :
  App_init ds w = (Ok app, w') →
  (∃ c, attr_conn (database app) w' = (Ok c, w') ∧
        fst (open_connection c w') = Raise (ProgrammingError closed_msg)) ∧
  (∀ data, ∃ w2,
     App_save_data app data w' = (Raise (ProgrammingError closed_msg), w2) ∧
     files w2 = files w') ∧
  (∀ n, ∃ e w2, App_run (S n) app w' = (Raise e, w2) ∧ files w2 = files w').
Proof.
  intros Hinit. apply App_init_closed in Hinit as (nm & c & _ & Hdb & Hcn).
  assert (Hclosed : fst (open_connection c w') = Raise (ProgrammingError closed_msg)).
  { unfold open_connection. by rewrite Hcn. }
  split; [|split].
  - exists c. split; [|done]. unfold attr_conn, Database_obj, bind. by rewrite Hdb.
  - intros data. eexists. split; [by apply (App_save_data_closed _ _ _ (Some nm) c)|done].
  - intros n. destruct (App_cycle_closed app w' (Some nm) c Hdb Hclosed)
      as (e & w2 & Hcycle & Hfiles).
    exists e, w2. split; [|done]. cbn [App_run]. by apply bind_raise.
Qed.

(** An iteration adds to the trace only events of the loop: no request,
    no new strategy, snapshots of the strategy of the application. *)
Lemma App_cycle_trace (self : App) :
  respects (trace_grows (loop_event (delivery_service self))) (App_cycle self).
Proof.
  assert (Hprint : ∀ s, respects (trace_grows (loop_event (delivery_service self)))
                          (print s)).
  { intros s. by apply emit_trace. }
  assert (Hsave : ∀ d, respects (trace_grows (loop_event (delivery_service self)))
                         (App_save_data self d)).
  { intros d. unfold App_save_data. frame. }
  unfold App_cycle, asyncio_sleep.
  apply (respects_bind_post _ (λ f, strategy f = delivery_service self));
    [|intros w f w' [= <- _]; done|intros fetch Hfetch].
  { unfold Fetch_init. apply respects_bind; [apply _| |intros o; frame].
    by apply alloc_trace. }
  apply respects_bind; [apply _| |intros data].
  { unfold Fetch_data. rewrite Hfetch. by apply USPS_data_trace. }
  repeat (lazymatch goal with
          | |- respects _ (bind _ _) =>
              apply respects_bind;
                [apply _|first [apply Hprint|apply Hsave|eauto with frame]|intros ?]
          end).
  by apply emit_trace.
Qed.

(** C2.  What the code does: the loop never constructs a strategy.  In
    any number of iterations, started in any state, the only events added
    to the trace are prints, sleeps, allocations of objects other than
    [USPS] and snapshots taken on the one strategy stored by
    [App.__init__]; no request is sent. *)
Theorem loop_reuses_the_constructed_strategy (n : nat) (self : App) (w : World) :
  trace_grows (loop_event (delivery_service self)) w (snd (App_run n self w)).
Proof.
  revert w. induction n as [|n IH]; intros w; [by cbn|].
  cbn [App_run]. unfold bind.
  pose proof (App_cycle_trace self w) as Hc.
  destruct (App_cycle self w) as [[[]|e] w1]; cbn in Hc; [|done].
  etrans; [exact Hc|apply IH].
Qed.

(** C3.  What the code does: a second construction returns the instance
    of the first, as [__new__] documents, and then runs [__init__] on it
    again with the second arguments.  When it succeeds, the location is the second name, the
    connection and cursor are a newly opened connection on the second
    file (the first connection is left as it was), and the second schema
    statement has been executed and committed on the second file.  When
    the second name lacks the extension, the call raises [ValueError] and
    changes nothing. *)
Theorem second_construction_reinitializes (n1 s1 n2 s2 : option string)
    (i : nat) (w w1 : World) :
  Database_construct n1 s1 w = (Ok i, w1) →
  Database_new w1 = (Ok i, w1) ∧
  Database_construct n2 s2 w1 = (do! Database_init i n2 s2 in ret i) w1 ∧
  (∀ nm, n2 = Some nm → Text.endswith nm ext = false →
     Database_construct n2 s2 w1 =
     (Raise (ValueError (nm +:+ " must end with " +:+ ext)), w1)) ∧
  (∀ j w2, Database_construct n2 s2 w1 = (Ok j, w2) →
     j = i ∧ Database_instance w2 = Some i ∧
     ∃ nm1 c1 nm2 q d,
       n1 = Some nm1 ∧ n2 = Some nm2 ∧ s2 = Some q ∧
       databases w1 !! i =
         Some {| name := Some nm1; conn := Some c1; cursor := Some c1 |} ∧
       databases w2 !! i =
         Some {| name := Some nm2; conn := Some (next_oid w1);
                 cursor := Some (next_oid w1) |} ∧
       next_oid w1 ≠ c1 ∧
       connections w2 !! c1 = connections w1 !! c1 ∧
       connections w2 !! next_oid w1 =
         Some {| c_file := nm2; c_open := true; c_tx := None |} ∧
       sql_exec q None (default empty_db (files w1 !! nm2)) = Ok d ∧
       files w2 = <[nm2 := d]> (files w1)).
Proof.
  intros H1.
  apply Database_construct_ok in H1 as (Hinst & nm1 & c1 & -> & Hdb1 & Hcn1 & Hnext).
  pose proof (Database_new_existing i w1 Hinst) as Hnew.
  assert (Hcons : Database_construct n2 s2 w1 = (do! Database_init i n2 s2 in ret i) w1).
  { unfold Database_construct. by rewrite (bind_ok _ _ _ _ _ Hnew). }
  split; [done|]. split; [done|]. split.
  - intros nm -> Hext. rewrite Hcons.
    by rewrite (bind_raise _ _ _ _ _ (Database_init_bad_name i nm s2 w1 Hext)).
  - intros j w2. rewrite Hcons. intros H2.
    apply bind_ok_inv in H2 as ([] & w2' & Hinit & H2). injection H2 as <- <-.
    apply Database_init_ok in Hinit
      as (nm2 & q & o & d & -> & _ & -> & _ & Hexec & Hdb & Hcn & Hfiles & _ & Hi).
    split; [done|]. split; [congruence|].
    exists nm1, c1, nm2, q, d.
    rewrite Hdb, Hcn, !lookup_insert_eq, Hnext.
    rewrite lookup_insert_ne by lia.
    repeat split; try done.
Qed.

(** C5, as the code has it.  The constructor raises exactly when
    [response.ok] is false, that is for the statuses 400 to 599: then it
    raises [Exception] with the message [Error: ] followed by the status
    code; for any other status it returns the object.  Either way the
    store is untouched, and when the constructor raises, [App.__init__]
    raises the same exception before it constructs the store. *)
Theorem construction_fails_on_error_status (w : World) (tn : string) (r : Response) :
  let env := environ w ∪ dotenv in
  let base := "https://tools.usps.com/go/TrackConfirmAction.action?tLabels=" in
  env !! "TRACKING_NUMBER" = Some tn →
  http_get (requests_sent w) (base +:+ tn) (env !! "USER_AGENT") = Ok r →
  ∃ w',
    USPS_init w =
      (if (400 <=? status_code r) && (status_code r <? 600)
       then Raise (Exception ("Error: " +:+ Text.str_of_int (status_code r)))
       else Ok {| oid := next_oid w; _tracking_number := tn; BASE_URL := base;
                  response := r; soup := html_parser (text r) |},
       w') ∧
    store_untouched w w' ∧
    (∀ ds w0 e, Text.match_us ds = true → w = snd (load_dotenv w0) →
       USPS_init w = (Raise e, w') →
       App_init ds w0 = (Raise e, w') ∧ store_untouched w0 w').
Proof.
  intros env base Htn Hget.
  pose proof (USPS_init_store w) as Hstore.
  assert (Hinit : ∃ w', USPS_init w =
      (if (400 <=? status_code r) && (status_code r <? 600)
       then Raise (Exception ("Error: " +:+ Text.str_of_int (status_code r)))
       else Ok {| oid := next_oid w; _tracking_number := tn; BASE_URL := base;
                  response := r; soup := html_parser (text r) |},
       w')).
  { unfold USPS_init, alloc, load_dotenv, getenv, bind. cbn.
    fold env. rewrite Htn. rewrite USPS_get_url_eq. cbn. fold env base.
    rewrite Hget. unfold Response_ok.
    destruct ((400 <=? status_code r) && (status_code r <? 600)); cbn; eauto. }
  destruct Hinit as (w' & Hinit). exists w'. rewrite Hinit in Hstore.
  cbn [snd] in Hstore.
  split; [exact Hinit|]. split; [exact Hstore|].
  intros ds w0 e Hus Hw Hraise. subst w.
  split.
  - unfold App_init. rewrite (bind_ok _ _ _ (snd (load_dotenv w0)) tt) by done.
    rewrite Hus. by rewrite (bind_raise _ _ _ _ _ Hraise).
  - destruct Hstore as (? & ? & ? & ?). by repeat split.
Qed.

(** The five parsed values of a snapshot are trimmed, and each is empty
    exactly when the text of its element is blank; the value of
    [tracking_number] is the configured string as it is. *)
Lemma snapshot_values (s : USPS) (w : World) :
  well_formed (soup s) →
  ∃ d w',
    USPS_data s w = (Ok d, w') ∧
    dom d = snapshot_keys ∧
    d !! "tracking_number" = Some (_tracking_number s) ∧
    Forall (λ m, ∃ n t,
              find "p" m.1 (soup s) = Some n ∧
              d !! m.2 = Some (Text.encode t) ∧
              Text.trimmed t ∧
              (t = [] ↔ Text.blank (get_text n)))
           field_markers.
Proof.
  unfold well_formed, field_markers. intros Hwf.
  repeat (apply Forall_cons in Hwf as [[? ?] Hwf]). cbn [fst] in *.
  eexists _, _. split; [by eapply USPS_data_ok|].
  split; [apply snapshot_dom|]. split; [done|].
  repeat (apply Forall_cons; split; [eexists _, _; split; [eassumption|]|]);
    [..|constructor].
  all: cbn [snd]; split; [by vm_compute|].
  all: first
    [ split; [apply StripFacts.strip_trimmed|apply StripFacts.strip_empty_iff]
    | split; [apply StripFacts.normalize_last_seen_trimmed
             |apply StripFacts.normalize_last_seen_empty_iff] ].
Qed.


End Claims.

(** ** The properties at concrete inputs *)

Lemma run_result {A B} (p : A * B) (a : A) : p.1 = a → p = (a, p.2).
Proof. destruct p. cbn. by intros ->. Qed.

Ltac by_eval :=
  lazymatch goal with
  | |- ?c = (?a, _) => apply (run_result c a); vm_compute; reflexivity
  end.

(** The application that [App.__init__] builds in the demo environment. *)
Lemma demo_started_eq :
  App_init (Ext := demo) "usps" start = (Ok demo_app, demo_started).
Proof. unfold demo_started. by_eval. Qed.

(** C1 at a concrete input: the process constructs the application for
    [usps] in the demo environment and then runs the loop. *)
Lemma connection_closed_when_loop_starts_witness :
  App_init (Ext := demo) "usps" start = (Ok demo_app, demo_started) ∧
  ((∃ c, attr_conn (database demo_app) demo_started = (Ok c, demo_started) ∧
         fst (open_connection c demo_started)
         = Raise (ProgrammingError closed_msg)) ∧
   (∀ data, ∃ w2,
      App_save_data demo_app data demo_started
      = (Raise (ProgrammingError closed_msg), w2) ∧
      files w2 = files demo_started) ∧
   (∀ n, ∃ e w2, App_run (S n) demo_app demo_started = (Raise e, w2) ∧
                 files w2 = files demo_started)).
Proof.
  split; [exact demo_started_eq|].
  exact (connection_closed_when_loop_starts (Ext := demo) "usps" start
           demo_started demo_app demo_started_eq).
Defined.

(** The first iteration of that process: the report is printed, then the
    insert raises, and nothing is stored. *)
Example first_cycle_raises :
  fst (App_cycle (Ext := demo) demo_app demo_started)
  = Raise (ProgrammingError closed_msg) ∧
  snapshots (events (snd (App_cycle (Ext := demo) demo_app demo_started))) = [0%nat] ∧
  files (snd (App_cycle (Ext := demo) demo_app demo_started)) !! "tracking.db"
  = Some [(demo_create, None)].
Proof. repeat split; vm_compute; reflexivity. Qed.

(** C2 at a concrete input: two iterations over a store whose connection
    is open.  Both snapshots are taken on the strategy object 0 that
    [App.__init__] constructed; the one request of the process is the one
    of that construction; both iterations store a row. *)
Example two_cycles_one_strategy :
  fst (App_run (Ext := demo) 2 demo_app demo_reopened) = Ok tt ∧
  oid (delivery_service demo_app) = 0%nat ∧
  snapshots (events (snd (App_run (Ext := demo) 2 demo_app demo_reopened)))
  = [0%nat; 0%nat] ∧
  requests_sent demo_started = 1%nat ∧
  requests_sent (snd (App_run (Ext := demo) 2 demo_app demo_reopened)) = 1%nat ∧
  length <$> (files (snd (App_run (Ext := demo) 2 demo_app demo_reopened))
              !! "tracking.db") = Some 4%nat.
Proof. repeat split; vm_compute; reflexivity. Qed.

(** C3 at a concrete input: the store is constructed on [tracking.db]
    and then on [other.db]. *)
Lemma second_construction_reinitializes_witness :
  Database_construct (Ext := demo) (Some "tracking.db") (Some demo_create) start
  = (Ok 0%nat, demo_store) ∧
  (Database_new demo_store = (Ok 0%nat, demo_store) ∧
   Database_construct (Some "other.db") (Some demo_create_other) demo_store
   = (do! Database_init 0 (Some "other.db") (Some demo_create_other) in ret 0%nat)
       demo_store ∧
   (∀ nm, Some "other.db" = Some nm → Text.endswith nm ext = false →
      Database_construct (Some "other.db") (Some demo_create_other) demo_store =
      (Raise (ValueError (nm +:+ " must end with " +:+ ext)), demo_store)) ∧
   (∀ j w2,
      Database_construct (Some "other.db") (Some demo_create_other) demo_store
      = (Ok j, w2) →
      j = 0%nat ∧ Database_instance w2 = Some 0%nat ∧
      ∃ nm1 c1 nm2 q d,
        Some "tracking.db" = Some nm1 ∧ Some "other.db" = Some nm2 ∧
        Some demo_create_other = Some q ∧
        databases demo_store !! 0%nat =
          Some {| name := Some nm1; conn := Some c1; cursor := Some c1 |} ∧
        databases w2 !! 0%nat =
          Some {| name := Some nm2; conn := Some (next_oid demo_store);
                  cursor := Some (next_oid demo_store) |} ∧
        next_oid demo_store ≠ c1 ∧
        connections w2 !! c1 = connections demo_store !! c1 ∧
        connections w2 !! next_oid demo_store =
          Some {| c_file := nm2; c_open := true; c_tx := None |} ∧
        sql_exec q None (default empty_db (files demo_store !! nm2)) = Ok d ∧
        files w2 = <[nm2 := d]> (files demo_store))).
Proof.
  assert (H : Database_construct (Ext := demo) (Some "tracking.db")
                (Some demo_create) start = (Ok 0%nat, demo_store))
    by (unfold demo_store; by_eval).
  split; [exact H|].
  exact (second_construction_reinitializes (Ext := demo) (Some "tracking.db")
           (Some demo_create) (Some "other.db") (Some demo_create_other) 0 start
           demo_store H).
Defined.

(** The two constructions side by side: after the second one the
    instance is the same, but its location, its connection and the
    statement executed on its file are those of the second call. *)
Example second_construction_uses_its_arguments :
  fst (Database_construct (Ext := demo) (Some "tracking.db") (Some demo_create) start)
  = Ok 0%nat ∧
  fst (Database_construct (Ext := demo) (Some "other.db") (Some demo_create_other) demo_store)
  = Ok 0%nat ∧
  fst (attr_name 0 demo_store) = Ok "tracking.db" ∧
  fst (attr_name 0 demo_second) = Ok "other.db" ∧
  fst (attr_conn 0 demo_store) = Ok 1%nat ∧
  fst (attr_conn 0 demo_second) = Ok 2%nat ∧
  files demo_store !! "other.db" = None ∧
  files demo_second !! "other.db" = Some [(demo_create_other, None)].
Proof. repeat split; vm_compute; reflexivity. Qed.

(** C4 at a concrete input: the page lacks the date element, so the
    snapshot raises [AttributeError]; the store is open. *)
Lemma failing_cycle_persists_nothing_witness :
  Fetch_init (Ext := demo_no_date) (delivery_service demo_app_no_date)
    demo_no_date_reopened
  = (Ok demo_no_date_fetch, demo_no_date_allocated) ∧
  Fetch_data (Ext := demo_no_date) demo_no_date_fetch demo_no_date_allocated
  = (Raise AttributeError, demo_no_date_failed) ∧
  (App_cycle (Ext := demo_no_date) demo_app_no_date demo_no_date_reopened
   = (Raise AttributeError, demo_no_date_failed) ∧
   store_untouched demo_no_date_reopened demo_no_date_failed ∧
   files demo_no_date_failed = files demo_no_date_reopened ∧
   clock_reads demo_no_date_failed = clock_reads demo_no_date_reopened ∧
   events demo_no_date_failed
   = EvSnapshot (oid (delivery_service demo_app_no_date))
     :: EvAlloc "Fetch" (fetch_oid demo_no_date_fetch)
     :: events demo_no_date_reopened).
Proof.
  assert (Hf : Fetch_init (Ext := demo_no_date) (delivery_service demo_app_no_date)
                 demo_no_date_reopened
               = (Ok demo_no_date_fetch, demo_no_date_allocated))
    by (unfold demo_no_date_allocated; by_eval).
  assert (Hd : Fetch_data (Ext := demo_no_date) demo_no_date_fetch
                 demo_no_date_allocated
               = (Raise AttributeError, demo_no_date_failed))
    by (unfold demo_no_date_failed; by_eval).
  split; [exact Hf|]. split; [exact Hd|].
  exact (failing_cycle_persists_nothing (Ext := demo_no_date) demo_app_no_date
           demo_no_date_reopened demo_no_date_allocated demo_no_date_failed
           demo_no_date_fetch AttributeError Hf Hd).
Defined.

(** C5 at a concrete input: the server answers 404. *)
Lemma construction_fails_on_error_status_witness :
  (environ (start (Ext := demo_404)) ∪ @dotenv demo_404) !! "TRACKING_NUMBER" = Some "9400" ∧
  http_get (Externals := demo_404) (requests_sent (start (Ext := demo_404)))
    ("https://tools.usps.com/go/TrackConfirmAction.action?tLabels=" +:+ "9400")
    ((environ (start (Ext := demo_404)) ∪ @dotenv demo_404) !! "USER_AGENT")
  = Ok {| status_code := 404; text := "<html>" |} ∧
  ∃ w',
    USPS_init (Ext := demo_404) start = (Raise (Exception "Error: 404"), w') ∧
    store_untouched start w' ∧
    (∀ ds w0 e, Text.match_us ds = true → start = snd (load_dotenv w0) →
       USPS_init start = (Raise e, w') →
       App_init ds w0 = (Raise e, w') ∧ store_untouched w0 w').
Proof.
  assert (H1 : (environ (start (Ext := demo_404)) ∪ @dotenv demo_404) !! "TRACKING_NUMBER"
               = Some "9400") by (vm_compute; reflexivity).
  split; [exact H1|]. split; [reflexivity|].
  exact (construction_fails_on_error_status (Ext := demo_404) start "9400"
           {| status_code := 404; text := "<html>" |} H1 eq_refl).
Defined.

(** C5 refuted as stated: the status 304 is not a success status, and the
    constructor returns the object; so does [App.__init__]. *)
Lemma construction_succeeds_on_304 :
  fst (USPS_init (Ext := demo_304) start) = Ok demo_usps_304 ∧
  status_code (response demo_usps_304) = 304 ∧
  (200 <=? 304) && (304 <? 300) = false ∧
  Response_ok (response demo_usps_304) = true ∧
  is_ok (fst (App_init (Ext := demo_304) "usps" start)) = true.
Proof. repeat split; vm_compute; reflexivity. Qed.

(** The demo page is well formed. *)
Lemma demo_page_well_formed : well_formed demo_page.
Proof.
  unfold well_formed, field_markers.
  repeat (constructor; [apply (bool_decide_unpack _); vm_compute; reflexivity|]).
  constructor.
Qed.




(** The snapshot of the demo page, and the snapshot of a page whose
    location element holds a no-break space only: that element is
    present, and its value in the snapshot is the empty string. *)
Example demo_page_snapshot :
  fst (USPS_data (Ext := demo) demo_usps start) = Ok demo_snapshot ∧
  well_formed (soup demo_usps_blank) ∧
  is_ok (fst (USPS_data (Ext := demo) demo_usps_blank start)) = true ∧
  snapshot_value (fst (USPS_data (Ext := demo) demo_usps_blank start))
    "location" = Some "".
Proof.
  split; [vm_compute; reflexivity|]. split.
  - unfold well_formed, field_markers.
    repeat (constructor; [apply (bool_decide_unpack _); vm_compute; reflexivity|]).
    constructor.
  - split; vm_compute; reflexivity.
Qed.

(** C8 at a concrete input: the snapshot of the demo page is saved. *)
Lemma save_data_stamps_snapshot_witness :
  USPS_data (Ext := demo) demo_usps start
  = (Ok demo_snapshot, snd (USPS_data (Ext := demo) demo_usps start)) ∧
  let ts := strftime (utc_clock (Externals := demo) (clock_reads demo_reopened)) in
  let stamped := <["date" := ts]> demo_snapshot in
  App_save_data demo_app demo_snapshot demo_reopened =
    Database_insert (database demo_app) (environ demo_reopened !! "INSERT_STATUS")
      stamped (with_clock_reads (S (clock_reads demo_reopened)) demo_reopened) ∧
  dom demo_snapshot = snapshot_keys ∧
  dom stamped = snapshot_keys ∪ {["date"]} ∧
  size stamped = 7%nat ∧
  stamped !! "date" = Some ts ∧
  Text.is_timestamp ts = true ∧
  (∀ k, k ∈ snapshot_keys → stamped !! k = demo_snapshot !! k).
Proof.
  assert (H : USPS_data (Ext := demo) demo_usps start
              = (Ok demo_snapshot, snd (USPS_data (Ext := demo) demo_usps start)))
    by by_eval.
  split; [exact H|].
  exact (save_data_stamps_snapshot (Ext := demo) demo_app demo_usps demo_snapshot
           start _ demo_reopened H).
Defined.

(** The stamp of the demo clock. *)
Example demo_stamp : strftime (utc_clock (Externals := demo) 0) = "2023-11-03 10:15".
Proof. vm_compute; reflexivity. Qed.

(** The store object of the demo state has its cursor on its connection. *)
Lemma demo_store_cursor : cursor_on_conn (Ext := demo) demo_store 0.
Proof. intros o Ho. vm_compute in Ho. by injection Ho as <-. Qed.

(** C10 at a concrete input: a row is written to the open demo store. *)
Lemma store_writes_are_atomic_witness :
  cursor_on_conn demo_store 0 ∧
  (atomic_outcome 0 (Some demo_insert) {["date" := "2023-11-03 10:15"]} demo_store
     (Database_insert 0 (Some demo_insert) {["date" := "2023-11-03 10:15"]} demo_store) ∧
   atomic_outcome 0 (Some demo_insert) {["date" := "2023-11-03 10:15"]} demo_store
     (Database_update 0 (Some demo_insert) {["date" := "2023-11-03 10:15"]} demo_store) ∧
   atomic_outcome 0 (Some demo_insert) {["date" := "2023-11-03 10:15"]} demo_store
     (Database_delete 0 (Some demo_insert) {["date" := "2023-11-03 10:15"]} demo_store)).
Proof.
  split; [exact demo_store_cursor|].
  exact (store_writes_are_atomic (Ext := demo) 0 (Some demo_insert)
           {["date" := "2023-11-03 10:15"]} demo_store demo_store_cursor).
Defined.

(** A write that returns has stored its row; a write whose statement the
    engine rejects raises and stores nothing. *)
Example insert_commits_or_keeps :
  fst (Database_insert (Ext := demo) 0 (Some demo_insert)
         {["date" := "2023-11-03 10:15"]} demo_store) = Ok tt ∧
  files (snd (Database_insert (Ext := demo) 0 (Some demo_insert)
                {["date" := "2023-11-03 10:15"]} demo_store)) !! "tracking.db"
  = Some [(demo_create, None);
          (demo_insert, Some {["date" := "2023-11-03 10:15"]})] ∧
  fst (Database_insert (Ext := demo) 0 (Some demo_insert)
         {["day" := "2023-11-03"]} demo_store)
  = Raise (ExternalError "no value for parameter :date") ∧
  files (snd (Database_insert (Ext := demo) 0 (Some demo_insert)
                {["day" := "2023-11-03"]} demo_store)) = files demo_store.
Proof. repeat split; vm_compute; reflexivity. Qed.

(** ** Further properties of the text primitives *)

Module WordFacts.
Import Text TextFacts StripFacts.

(** Whitespace at the end adds no word. *)
Lemma findall_S_snoc_space (l : list codepoint) (c : codepoint) :
  isspace c = true → findall_S (l ++ [c]) = findall_S l.
Proof.
  intros Hc. induction l as [|x l IH].
  - cbn [app]. by rewrite findall_S_cons, Hc.
  - rewrite <- app_comm_cons, !findall_S_cons.
    destruct (isspace x); [exact IH|].
    destruct l as [|d l'].
    + cbn [app]. by rewrite Hc, findall_S_cons, Hc.
    + rewrite IH. rewrite <- app_comm_cons. done.
Qed.

Lemma findall_S_app_spaces (l sp : list codepoint) :
  Forall (λ c, isspace c = true) sp →
  findall_S (l ++ sp) = findall_S l.
Proof.
  revert l. induction sp as [|c sp IH]; intros l Hsp; [by rewrite app_nil_r|].
  inversion Hsp as [|? ? Hc Hrest]; subst.
  replace (l ++ c :: sp) with ((l ++ [c]) ++ sp) by (by rewrite <- app_assoc).
  rewrite IH by done. by apply findall_S_snoc_space.
Qed.

Lemma findall_S_lstrip (l : list codepoint) :
  findall_S (lstrip l) = findall_S l.
Proof.
  induction l as [|c l IH]; [done|]. cbn [lstrip].
  destruct (isspace c) eqn:Hc; [|done].
  by rewrite IH, (findall_S_cons c l), Hc.
Qed.

(** What [lstrip] removes is whitespace. *)
Lemma lstrip_split (l : list codepoint) :
  ∃ sp, l = sp ++ lstrip l ∧ Forall (λ c, isspace c = true) sp.
Proof.
  induction l as [|c l (sp & Heq & Hsp)]; [by exists []|]. cbn [lstrip].
  destruct (isspace c) eqn:Hc.
  - exists (c :: sp). split; [by rewrite <- app_comm_cons, <- Heq|by constructor].
  - by exists [].
Qed.

Lemma rstrip_split (l : list codepoint) :
  ∃ sp, l = rstrip l ++ sp ∧ Forall (λ c, isspace c = true) sp.
Proof.
  destruct (lstrip_split (rev l)) as (sp & Heq & Hsp).
  exists (rev sp). split.
  - unfold rstrip. rewrite <- rev_app_distr, <- Heq. by rewrite rev_involutive.
  - by apply List.Forall_rev.
Qed.

Lemma findall_S_rstrip (l : list codepoint) :
  findall_S (rstrip l) = findall_S l.
Proof.
  destruct (rstrip_split l) as (sp & Heq & Hsp).
  rewrite Heq at 2. by rewrite findall_S_app_spaces.
Qed.

(** Stripping does not change the words. *)
Lemma findall_S_strip (l : list codepoint) :
  findall_S (strip l) = findall_S l.
Proof.
  unfold strip. by rewrite findall_S_rstrip, findall_S_lstrip.
Qed.

(** Every whitespace character of a single-space join of words is a space. *)
Lemma join_words_spaces (ws : list (list codepoint)) :
  Forall is_word ws →
  Forall (λ c, isspace c = true → c = space) (join [space] ws).
Proof.
  induction 1 as [|w ws [_ Hw] Hws IH]; [constructor|].
  assert (Hwc : Forall (λ c, isspace c = true → c = space) w).
  { eapply Forall_impl; [exact Hw|]. cbn. intros c -> [=]. }
  destruct ws as [|w' ws']; [exact Hwc|].
  change (join [space] (w :: w' :: ws'))
    with (w ++ space :: join [space] (w' :: ws')).
  apply Forall_app. split; [exact Hwc|]. by constructor.
Qed.

Lemma startswith_chars_spec (p s : list ascii) :
  startswith_chars p s = true ↔ ∃ t, s = p ++ t.
Proof.
  revert s. induction p as [|a p IH]; intros s; simpl.
  - split; [by exists s|done].
  - destruct s as [|b s]; [split; [done|by intros (t & [=])]|].
    destruct (Ascii.eqb a b) eqn:Hab.
    + apply Ascii.eqb_eq in Hab as ->. rewrite IH. split.
      * intros (t & ->). by exists t.
      * intros (t & [= ->]). by exists t.
    + apply Ascii.eqb_neq in Hab. split; [done|]. intros (t & [= <- _]). done.
Qed.

Lemma string_of_list_ascii_app (a b : list ascii) :
  string_of_list_ascii (a ++ b) = string_of_list_ascii a +:+ string_of_list_ascii b.
Proof. induction a as [|x a IH]; [done|]. cbn. by rewrite IH. Qed.

Lemma list_ascii_of_string_app (a b : string) :
  list_ascii_of_string (a +:+ b) = list_ascii_of_string a ++ list_ascii_of_string b.
Proof.
  induction a as [|x a IH]; [done|].
  change (String x a +:+ b) with (String x (a +:+ b)). cbn. by rewrite IH.
Qed.

(** [endswith]: the string is some prefix followed by the suffix. *)
Lemma endswith_spec (s suffix : string) :
  endswith s suffix = true ↔ ∃ p, s = p +:+ suffix.
Proof.
  unfold endswith. rewrite startswith_chars_spec. split.
  - intros (t & Heq). exists (string_of_list_ascii (rev t)).
    apply (f_equal (@rev ascii)) in Heq.
    rewrite rev_involutive, rev_app_distr, rev_involutive in Heq.
    rewrite <- (string_of_list_ascii_of_string s), Heq.
    rewrite <- (string_of_list_ascii_of_string suffix) at 2.
    apply string_of_list_ascii_app.
  - intros (p & ->). exists (rev (list_ascii_of_string p)).
    by rewrite list_ascii_of_string_app, rev_app_distr.
Qed.

End WordFacts.

(** ** Further properties of the program *)

Section MoreStoreFacts.
Context `{Ext : Externals}.


#[export] Instance connections_kept_refl : Reflexive connections_kept.
Proof. by intros w. Qed.

#[export] Instance connections_kept_trans : Transitive connections_kept.
Proof.
  intros w1 w2 w3 (?&?&?&?&H12) (?&?&?&?&H23). unfold connections_kept.
  repeat split; try congruence; intros c; by rewrite H23, H12.
Qed.

(** The frame rule of [with connection]. *)
Lemma with_connection_respects (R : World → World → Prop) `{!Transitive R}
    {A} (c : nat) (body : M A) :
  respects R body →
  respects R (Connection_commit c) →
  respects R (Connection_rollback c) →
  respects R (with_connection c body).
Proof.
  intros Hbody Hcommit Hroll w. unfold with_connection. specialize (Hbody w).
  destruct (body w) as [[a|e] w1]; cbn in Hbody.
  - specialize (Hcommit w1).
    destruct (Connection_commit c w1) as [[?|e] w2]; cbn in *.
    + by etrans.
    + specialize (Hroll w2). etrans; [exact Hbody|]. by etrans.
  - specialize (Hroll w1).
    destruct (Connection_rollback c w1) as [[?|e'] w2]; cbn in *; by etrans.
Qed.

(** Replacing an open connection by an open connection on the same file
    keeps the connections. *)
Lemma connections_kept_update (w : World) (c : nat) (cn : Connection)
    (tx : option DbState) :
  connections w !! c = Some cn → c_open cn = true →
  connections_kept w
    (with_connections
       (<[c := {| c_file := c_file cn; c_open := true; c_tx := tx |}]>
          (connections w)) w).
Proof.
  intros Hc Hopen. unfold connections_kept. cbn. repeat split.
  intros c'. destruct (decide (c' = c)) as [->|Hne].
  - rewrite lookup_insert_eq, Hc. cbn. by rewrite Hopen.
  - by rewrite lookup_insert_ne.
Qed.

Lemma open_connection_inv (c : nat) (w w' : World) (cn : Connection) :
  open_connection c w = (Ok cn, w') →
  w' = w ∧ connections w !! c = Some cn ∧ c_open cn = true.
Proof.
  unfold open_connection. destruct (connections w !! c) as [k|]; [|intros [=]].
  destruct (c_open k) eqn:Hopen; intros [= <- <-]. done.
Qed.

Lemma open_connection_kept (c : nat) : respects connections_kept (open_connection c).
Proof.
  intros w. unfold open_connection.
  destruct (connections w !! c) as [k|]; [destruct (c_open k)|]; done.
Qed.

Lemma Cursor_execute_kept (c : nat) (sql : option string) (params : option dict) :
  respects connections_kept (Cursor_execute c sql params).
Proof.
  intros w. unfold Cursor_execute. destruct sql as [q|]; [|done].
  unfold bind. destruct (open_connection c w) as [[cn|e] w1] eqn:Hoc; [|
    by pose proof (open_connection_kept c w) as H; rewrite Hoc in H].
  apply open_connection_inv in Hoc as (-> & Hc & Hopen).
  destruct (sql_exec q params (visible_state cn w)) as [d|e]; [|done].
  destruct (bool_decide (is_Some (c_tx cn)) || is_dml q); cbn.
  - by apply connections_kept_update.
  - done.
Qed.

Lemma Connection_commit_kept (c : nat) : respects connections_kept (Connection_commit c).
Proof.
  intros w. unfold Connection_commit, bind.
  destruct (open_connection c w) as [[cn|e] w1] eqn:Hoc; [|
    by pose proof (open_connection_kept c w) as H; rewrite Hoc in H].
  apply open_connection_inv in Hoc as (-> & Hc & Hopen).
  destruct (c_tx cn); cbn; [|done].
  pose proof (connections_kept_update w c cn None Hc Hopen) as (?&?&?&?&?).
  by repeat split.
Qed.

Lemma Connection_rollback_kept (c : nat) :
  respects connections_kept (Connection_rollback c).
Proof.
  intros w. unfold Connection_rollback, bind.
  destruct (open_connection c w) as [[cn|e] w1] eqn:Hoc; [|
    by pose proof (open_connection_kept c w) as H; rewrite Hoc in H].
  apply open_connection_inv in Hoc as (-> & Hc & Hopen). cbn.
  by apply connections_kept_update.
Qed.

Lemma attr_conn_kept (self : nat) : respects connections_kept (attr_conn self).
Proof.
  intros w. unfold attr_conn, Database_obj, bind.
  destruct (databases w !! self) as [o|]; [destruct (conn o)|]; done.
Qed.

Lemma attr_cursor_kept (self : nat) : respects connections_kept (attr_cursor self).
Proof.
  intros w. unfold attr_cursor, Database_obj, bind.
  destruct (databases w !! self) as [o|]; [destruct (cursor o)|]; done.
Qed.

Lemma Database_insert_kept (self : nat) (sql : option string) (data : dict) :
  respects connections_kept (Database_insert self sql data).
Proof.
  unfold Database_insert.
  apply respects_bind; [apply _|apply attr_conn_kept|intros c].
  apply respects_bind; [apply _| |intros _].
  - apply with_connection_respects;
      [apply _| |apply Connection_commit_kept|apply Connection_rollback_kept].
    apply respects_bind; [apply _|apply attr_cursor_kept|intros cur].
    apply Cursor_execute_kept.
  - apply respects_bind; [apply _|apply attr_conn_kept|intros c'].
    apply Connection_commit_kept.
Qed.

End MoreStoreFacts.

Section MoreProperties.
Context `{Ext : Externals}.

(** Loading the [.env] file twice is loading it once. *)
Lemma dotenv_twice (env : dict) : (env ∪ dotenv) ∪ dotenv = env ∪ dotenv.
Proof. by rewrite <- (assoc_L (∪)), (idemp_L (∪)). Qed.

(** X1.  An identifier that does not start with [us] (in either case) is
    rejected: [App.__init__] raises [ValueError] right after loading the
    [.env] file; it sends no request, allocates no object, adds nothing
    to the trace and leaves the store alone. *)
Theorem unsupported_service_rejected (ds : string) (w : World) :
  Text.match_us ds = false →
  App_init ds w =
    (Raise (ValueError "Delivery Service is not supported."),
     with_environ (environ w ∪ dotenv) w) ∧
  requests_sent (snd (App_init ds w)) = requests_sent w ∧
  next_oid (snd (App_init ds w)) = next_oid w ∧
  events (snd (App_init ds w)) = events w ∧
  store_untouched w (snd (App_init ds w)).
Proof.
  intros Hds.
  assert (H : App_init ds w =
            (Raise (ValueError "Delivery Service is not supported."),
             with_environ (environ w ∪ dotenv) w)).
  { unfold App_init, load_dotenv, bind, raise. by rewrite Hds. }
  rewrite H. by repeat split.
Qed.

(** X2.  A store name that does not end in [.db] is rejected before any
    I/O: the construction raises [ValueError] naming the extension, opens
    no connection and leaves the files alone.  The object that [__new__]
    made is registered as the instance all the same; when it is the first
    one it has no attribute, so its [__str__] and its writes raise
    [AttributeError]. *)
Theorem store_name_must_end_with_db (nm : string) (sql : option string) (w : World) :
  Text.endswith nm ext = false →
  ∃ i w',
    Database_construct (Some nm) sql w =
      (Raise (ValueError (nm +:+ " must end with " +:+ ext)), w') ∧
    Database_instance w' = Some i ∧
    connections w' = connections w ∧ files w' = files w ∧
    (Database_instance w = None →
     databases w' !! i = Some {| name := None; conn := None; cursor := None |} ∧
     fst (Database_str i w') = Raise AttributeError ∧
     ∀ q d, fst (Database_insert i q d w') = Raise AttributeError).
Proof.
  intros Hext. unfold Database_construct.
  destruct (Database_instance w) as [j|] eqn:Hinst.
  - exists j, w. rewrite (bind_ok _ _ _ _ _ (Database_new_existing j w Hinst)).
    rewrite (bind_raise _ _ _ _ _ (Database_init_bad_name j nm sql w Hext)).
    by repeat split.
  - destruct (Database_new_first w Hinst) as (w' & Hnew & Hi & Hobj & Hf & Hc).
    exists (next_oid w), w'. rewrite (bind_ok _ _ _ _ _ Hnew).
    rewrite (bind_raise _ _ _ _ _ (Database_init_bad_name _ nm sql w' Hext)).
    repeat split; try done.
    + unfold Database_str, attr_name, Database_obj, bind. by rewrite Hobj.
    + intros q d. unfold Database_insert, attr_conn, Database_obj, bind.
      by rewrite Hobj.
Qed.

(** X3.  Without a configured tracking number the strategy cannot be
    constructed: the concatenation with the base URL raises [TypeError]
    before any request is sent, and [App.__init__] raises it too. *)
Theorem unset_tracking_number_raises (w : World) :
  (environ w ∪ dotenv) !! "TRACKING_NUMBER" = None →
  ∃ w',
    USPS_init w = (Raise TypeError, w') ∧
    requests_sent w' = requests_sent w ∧
    store_untouched w w' ∧
    (∀ ds w0, Text.match_us ds = true → w = snd (load_dotenv w0) →
       App_init ds w0 = (Raise TypeError, w')).
Proof.
  intros Htn.
  assert (H : ∃ w', USPS_init w = (Raise TypeError, w') ∧
                    requests_sent w' = requests_sent w).
  { unfold USPS_init, alloc, load_dotenv, getenv, USPS_get_url, bind, raise. cbn.
    rewrite Htn. eauto. }
  destruct H as (w' & Hinit & Hreq). exists w'.
  pose proof (USPS_init_store w) as Hstore. rewrite Hinit in Hstore.
  repeat split; try done; try apply Hstore.
  intros ds w0 Hds ->. unfold App_init.
  rewrite (bind_ok _ _ _ (snd (load_dotenv w0)) tt) by done.
  rewrite Hds. by rewrite (bind_raise _ _ _ _ _ Hinit).
Qed.

(** In well-formed markup each of the five elements is found. *)
Lemma well_formed_finds (soup : list node) :
  well_formed soup →
  ∃ nc ns nd nl nt,
    find "p" "banner-content" soup = Some nc ∧
    find "p" "tb-status" soup = Some ns ∧
    find "p" "tb-status-detail" soup = Some nd ∧
    find "p" "tb-location" soup = Some nl ∧
    find "p" "tb-date" soup = Some nt.
Proof.
  unfold well_formed, field_markers. intros Hwf.
  repeat (apply Forall_cons in Hwf as [[? ?] Hwf]). cbn [fst] in *.
  eauto 10.
Qed.

(** X4.  The snapshot is returned exactly when the five elements are
    present; otherwise [data] raises [AttributeError].  Its result
    depends on the strategy object only, not on the state in which it is
    called. *)
Theorem snapshot_returned_iff_well_formed (s : USPS) (w : World) :
  (well_formed (soup s) ↔ is_ok (fst (USPS_data s w)) = true) ∧
  (is_ok (fst (USPS_data s w)) = false → fst (USPS_data s w) = Raise AttributeError) ∧
  (∀ w2, fst (USPS_data s w2) = fst (USPS_data s w)).
Proof.
  split; [|split].
  - split.
    + intros Hwf.
      destruct (well_formed_finds _ Hwf) as (nc & ns & nd & nl & nt & ? & ? & ? & ? & ?).
      by erewrite USPS_data_ok.
    + destruct (USPS_data s w) as [[d|e] w'] eqn:Hd; [|done]. intros _.
      apply USPS_data_ok_inv in Hd as (nc & ns & nd & nl & nt & Hc & Hs & Hd & Hl & Ht & _).
      unfold well_formed, field_markers.
      repeat (constructor; [cbn [fst]; eauto|]). constructor.
  - unfold_usps.
    destruct (find "p" "banner-content" (soup s)); [|done].
    destruct (find "p" "tb-status" (soup s)); [|done].
    destruct (find "p" "tb-status-detail" (soup s)); [|done].
    destruct (find "p" "tb-location" (soup s)); [|done].
    destruct (find "p" "tb-date" (soup s)); [|done]. cbn. done.
  - intros w2. unfold_usps.
    destruct (find "p" "banner-content" (soup s)); [|done].
    destruct (find "p" "tb-status" (soup s)); [|done].
    destruct (find "p" "tb-status-detail" (soup s)); [|done].
    destruct (find "p" "tb-location" (soup s)); [|done].
    destruct (find "p" "tb-date" (soup s)); done.
Qed.

End MoreProperties.

Section MoreLoopFacts.
Context `{Ext : Externals}.

(** X5.  The normalization of [parse_last_seen] keeps the words: the
    whitespace-separated words of the result are those of the input, in
    the same order; the result is these words joined by single spaces
    (stripping first changes nothing); and the only whitespace character
    left in the result is the space.  Words are separated by every
    whitespace character, the no-break space and the em space among
    them. *)
Theorem normalization_keeps_words (s : list Text.codepoint) :
  Text.findall_S (Text.normalize_last_seen s) = Text.findall_S s ∧
  Text.normalize_last_seen s = Text.join [Text.space] (Text.findall_S s) ∧
  Forall (λ c, Text.isspace c = true → c = Text.space)
    (Text.normalize_last_seen s) ∧
  Text.findall_S [97; 160; 98; 8195; 99; 100; 10]%N = [[97]; [98]; [99; 100]]%N.
Proof.
  unfold Text.normalize_last_seen.
  rewrite WordFacts.findall_S_strip.
  split; [|split; [|split]].
  - by rewrite TextFacts.findall_S_join by apply TextFacts.findall_S_words.
  - done.
  - apply WordFacts.join_words_spaces, TextFacts.findall_S_words.
  - by vm_compute.
Qed.



End MoreLoopFacts.


Section MoreConstructionFacts.
Context `{Ext : Externals}.

(** What a successful [USPS.__init__] did. *)
Lemma USPS_init_ok (w w' : World) (s : USPS) :
  USPS_init w = (Ok s, w') →
  ∃ tn r,
    (environ w ∪ dotenv) !! "TRACKING_NUMBER" = Some tn ∧
    http_get (requests_sent w) (usps_base_url +:+ tn)
      ((environ w ∪ dotenv) !! "USER_AGENT") = Ok r ∧
    Response_ok r = true ∧
    s = {| oid := next_oid w; _tracking_number := tn; BASE_URL := usps_base_url;
           response := r; soup := html_parser (text r) |} ∧
    requests_sent w' = S (requests_sent w) ∧
    environ w' = environ w ∪ dotenv ∧
    store_untouched w w'.
Proof.
  intros Hinit. pose proof (USPS_init_store w) as Hstore. rewrite Hinit in Hstore.
  revert Hinit.
  unfold USPS_init, alloc, load_dotenv, getenv, bind. cbn.
  destruct ((environ w ∪ dotenv) !! "TRACKING_NUMBER") as [tn|] eqn:Htn;
    [|intros [=]].
  rewrite USPS_get_url_eq. cbn. fold usps_base_url.
  destruct (http_get _ _ _) as [r|e] eqn:Hget; [|intros [=]].
  destruct (Response_ok r) eqn:Hok; [|intros [=]].
  intros [= <- <-]. exists tn, r. cbn. by repeat split.
Qed.

(** [__new__] touches neither files nor connections nor the environment. *)
Lemma Database_new_frame (w w' : World) (i : nat) :
  Database_new w = (Ok i, w') →
  files w' = files w ∧ connections w' = connections w ∧
  environ w' = environ w ∧ requests_sent w' = requests_sent w.
Proof.
  unfold Database_new. destruct (Database_instance w); cbn; by intros [= <- <-].
Qed.

(** A successful [__init__] sends no request and keeps the environment. *)
Lemma Database_init_ok_frame (self : nat) (name sql : option string) (w w' : World) :
  Database_init self name sql w = (Ok tt, w') →
  requests_sent w' = requests_sent w ∧ environ w' = environ w.
Proof.
  unfold_store.
  destruct name as [nm|]; [|intros [=]].
  destruct (Text.endswith nm ext) eqn:Hext; [|intros [=]]. cbn [negb].
  destruct (databases w !! self) as [o|] eqn:Ho; [|intros [=]].
  destruct sql as [q|]; [|eval_store; intros [=]].
  eval_store.
  destruct (sql_exec q None (default empty_db (files w !! nm))) as [d|e] eqn:Hexec;
    [|intros [=]].
  destruct (is_dml q) eqn:Hdml; eval_store; by intros [= <-].
Qed.

(** The fields of the application that [App.__init__] returns. *)
Lemma App_init_fields (ds : string) (w w' : World) (app : App) :
  App_init ds w = (Ok app, w') → sleep app = 900 ∧ seperator app = em_dash.
Proof.
  unfold App_init. intros H.
  apply bind_ok_inv in H as ([] & w0 & _ & H).
  apply bind_ok_inv in H as (usps & w1 & _ & H).
  apply bind_ok_inv in H as (nm & w1' & _ & H).
  apply bind_ok_inv in H as (sql & w1'' & _ & H).
  apply bind_ok_inv in H as (mgr & w2 & _ & H).
  unfold with_Database, Database_enter, bind, ret in H. cbn in H.
  destruct (Database_exit mgr w2) as [[[]|e] w3]; [|done].
  by injection H as <- <-.
Qed.

(** Closing the connection of the store changes the connections only. *)
Lemma Database_exit_frame (self : nat) (w w' : World) :
  Database_exit self w = (Ok tt, w') →
  files w' = files w ∧ environ w' = environ w ∧
  requests_sent w' = requests_sent w.
Proof.
  unfold Database_exit, attr_conn, Database_obj, Connection_close, bind.
  destruct (databases w !! self) as [o|]; [|intros [=]].
  destruct (conn o) as [c|]; [|intros [=]]. cbn.
  destruct (connections w !! c); by intros [= <-].
Qed.

(** X7.  What a successful [App.__init__] has done: the identifier is a
    supported one; one request was sent, to the base URL followed by the
    configured tracking number, with the configured user agent, and its
    response was a success; the strategy holds that response parsed; the
    poll interval is 900 seconds; the store name ends in [.db] and the
    schema statement was executed and committed on that file. *)
Theorem construction_postcondition (ds : string) (w w' : World) (app : App) :
  App_init ds w = (Ok app, w') →
  ∃ tn r nm q d,
    Text.match_us ds = true ∧
    (environ w ∪ dotenv) !! "TRACKING_NUMBER" = Some tn ∧
    http_get (requests_sent w) (usps_base_url +:+ tn)
      ((environ w ∪ dotenv) !! "USER_AGENT") = Ok r ∧
    Response_ok r = true ∧
    delivery_service app =
      {| oid := next_oid w; _tracking_number := tn; BASE_URL := usps_base_url;
         response := r; soup := html_parser (text r) |} ∧
    sleep app = 900 ∧
    requests_sent w' = S (requests_sent w) ∧
    (environ w ∪ dotenv) !! "DB_NAME" = Some nm ∧
    Text.endswith nm ext = true ∧
    (environ w ∪ dotenv) !! "CREATE_TABLE" = Some q ∧
    sql_exec q None (default empty_db (files w !! nm)) = Ok d ∧
    files w' = <[nm := d]> (files w).
Proof.
  intros Hinit. destruct (App_init_fields _ _ _ _ Hinit) as (Hsleep & _).
  apply App_init_ok in Hinit as (w1 & w2 & w3 & Hds & Husps & Hcons & Hexit & ->).
  apply USPS_init_ok in Husps
    as (tn & r & Htn & Hget & Hok & Heq & Hreq & Henv & (Hf & _)).
  cbn in Htn, Hget, Hreq, Henv, Hf. rewrite dotenv_twice in Htn, Hget, Henv.
  unfold Database_construct in Hcons.
  apply bind_ok_inv in Hcons as (j & w1a & Hnew & Hcons).
  apply bind_ok_inv in Hcons as ([] & w2' & Hdb & Hcons).
  injection Hcons as -> ->.
  apply Database_new_frame in Hnew as (Hf1 & _ & Henv1 & Hreq1).
  pose proof (Database_init_ok_frame _ _ _ _ _ Hdb) as (Hreq2 & _).
  apply Database_init_ok in Hdb
    as (nm & q & o & d & Hnm & Hext & Hq & _ & Hexec & _ & _ & Hf2 & _).
  apply Database_exit_frame in Hexit as (Hf3 & _ & Hreq3).
  exists tn, r, nm, q, d. rewrite Henv in Hnm, Hq.
  rewrite Hf1, Hf in Hexec. rewrite Hf3, Hf2, Hf1, Hf.
  repeat split; try done.
  congruence.
Qed.

End MoreConstructionFacts.

Section MoreWriteFacts.
Context `{Ext : Externals}.

(** X8.  A write operation never opens or closes a connection, never
    moves one to another file, never allocates an object and never
    prints: whatever its outcome, the store objects, the class instance,
    the allocation counter and the trace are the same, and every
    connection is on the same file and as open as before. *)
Theorem writes_keep_connections (self : nat) (sql : option string) (data : dict)
    (w : World) :
  connections_kept w (snd (Database_insert self sql data w)) ∧
  connections_kept w (snd (Database_update self sql data w)) ∧
  connections_kept w (snd (Database_delete self sql data w)).
Proof. repeat split; apply Database_insert_kept. Qed.


(** X10.  The store name is checked only after the strategy was built:
    with a supported identifier and a store name that does not end in
    [.db], [App.__init__] raises [ValueError] after the request to the
    carrier was sent; no connection is opened and the files are left
    alone. *)
Theorem store_name_checked_after_fetch (ds : string) (w w1 : World)
    (usps : USPS) (nm : string) :
  Text.match_us ds = true →
  USPS_init (snd (load_dotenv w)) = (Ok usps, w1) →
  (environ w ∪ dotenv) !! "DB_NAME" = Some nm →
  Text.endswith nm ext = false →
  ∃ w',
    App_init ds w = (Raise (ValueError (nm +:+ " must end with " +:+ ext)), w') ∧
    requests_sent w' = S (requests_sent w) ∧
    files w' = files w ∧ connections w' = connections w.
Proof.
  intros Hds Husps Hnm Hext.
  destruct (USPS_init_ok _ _ _ Husps)
    as (tn & r & _ & _ & _ & _ & Hreq & Henv & (Hf & Hc & _)).
  cbn in Hreq, Henv, Hf, Hc. rewrite dotenv_twice in Henv.
  destruct (Database_new_total w1) as (i & w1a & Hnew).
  destruct (Database_new_frame _ _ _ Hnew) as (Hf1 & Hc1 & _ & Hreq1).
  exists w1a. split; [|split; [congruence|split; congruence]].
  unfold App_init.
  rewrite (bind_ok _ _ _ (snd (load_dotenv w)) tt) by done.
  rewrite Hds, (bind_ok _ _ _ _ _ Husps).
  unfold getenv at 1 2. unfold bind at 1 2. rewrite Henv, Hnm.
  unfold Database_construct.
  rewrite (bind_raise _ _ w1 w1a
             (ValueError (nm +:+ " must end with " +:+ ext))); [done|].
  rewrite (bind_ok _ _ _ _ _ Hnew).
  by rewrite (bind_raise _ _ _ _ _ (Database_init_bad_name i nm _ w1a Hext)).
Qed.

(** X11.  The store is usable inside its [with] block and closed when the
    block is left, on both ways out: for a body that opens and closes no
    connection itself, the block returns or raises what the body returns
    or raises, and afterwards the connection of the store is closed. *)
Theorem with_block_closes_connection {A} (mgr : nat) (body : nat → M A) (w : World)
    (nm : option string) (c : nat) (cn : Connection) :
  databases w !! mgr = Some {| name := nm; conn := Some c; cursor := Some c |} →
  connections w !! c = Some cn →
  respects connections_kept (body mgr) →
  fst (with_Database mgr body w) = fst (body mgr w) ∧
  c_open <$> (connections (snd (with_Database mgr body w)) !! c) = Some false ∧
  files (snd (with_Database mgr body w)) = files (snd (body mgr w)).
Proof.
  intros Ho Hc Hbody. specialize (Hbody w).
  unfold with_Database, Database_enter, bind, ret. cbn.
  destruct (body mgr w) as [r w1]. cbn in Hbody.
  destruct Hbody as (Hdb & _ & _ & _ & Hcn). specialize (Hcn c).
  rewrite Hc in Hcn. cbn in Hcn.
  destruct (connections w1 !! c) as [cn1|] eqn:Hc1; [|done].
  assert (Hexit : Database_exit mgr w1 =
            (Ok tt, with_connections
                      (<[c := {| c_file := c_file cn1; c_open := false;
                                 c_tx := None |}]> (connections w1)) w1)).
  { unfold Database_exit, attr_conn, Database_obj, Connection_close, bind.
    rewrite Hdb, Ho. cbn. by rewrite Hc1. }
  destruct r as [a|e]; rewrite Hexit; cbn; by rewrite lookup_insert_eq.
Qed.

End MoreWriteFacts.

(** ** The further properties at concrete inputs *)

Section DemoProperties.
#[local] Existing Instance demo.

(** X1 at a concrete input: the identifier [fedex]. *)
Lemma unsupported_service_rejected_witness :
  Text.match_us "fedex" = false ∧
  (App_init (Ext := demo) "fedex" start =
     (Raise (ValueError "Delivery Service is not supported."),
      with_environ (environ start ∪ dotenv) start) ∧
   requests_sent (snd (App_init (Ext := demo) "fedex" start)) = requests_sent start ∧
   next_oid (snd (App_init (Ext := demo) "fedex" start)) = next_oid start ∧
   events (snd (App_init (Ext := demo) "fedex" start)) = events start ∧
   store_untouched start (snd (App_init (Ext := demo) "fedex" start))).
Proof.
  split; [reflexivity|].
  exact (unsupported_service_rejected (Ext := demo) "fedex" start eq_refl).
Defined.

(** The identifiers that are accepted start with [us] in either case. *)
Example supported_identifiers :
  Text.match_us "usps" = true ∧ Text.match_us "USPS" = true ∧
  Text.match_us "Us" = true ∧ Text.match_us "us-mail" = true ∧
  Text.match_us "u" = false ∧ Text.match_us "" = false ∧
  Text.match_us "ups" = false ∧ Text.match_us " usps" = false.
Proof. repeat split; reflexivity. Qed.

(** X2 at a concrete input: the name [tracking.sqlite], first construction. *)
Lemma store_name_must_end_with_db_witness :
  Text.endswith "tracking.sqlite" ext = false ∧
  ∃ i w',
    Database_construct (Ext := demo) (Some "tracking.sqlite") (Some demo_create) start =
      (Raise (ValueError ("tracking.sqlite" +:+ " must end with " +:+ ext)), w') ∧
    Database_instance w' = Some i ∧
    connections w' = connections start ∧ files w' = files start ∧
    (Database_instance (start (Ext := demo)) = None →
     databases w' !! i = Some {| name := None; conn := None; cursor := None |} ∧
     fst (Database_str i w') = Raise AttributeError ∧
     ∀ q d, fst (Database_insert i q d w') = Raise AttributeError).
Proof.
  split; [reflexivity|].
  exact (store_name_must_end_with_db (Ext := demo) "tracking.sqlite"
           (Some demo_create) start eq_refl).
Defined.

(** X3 at a concrete input: an environment without [TRACKING_NUMBER]. *)
Lemma unset_tracking_number_raises_witness :
  (environ (start (Ext := demo_no_tracking)) ∪ @dotenv demo_no_tracking)
    !! "TRACKING_NUMBER" = None ∧
  ∃ w',
    USPS_init (Ext := demo_no_tracking) start = (Raise TypeError, w') ∧
    requests_sent w' = requests_sent start ∧
    store_untouched start w' ∧
    (∀ ds w0, Text.match_us ds = true → start = snd (load_dotenv w0) →
       App_init ds w0 = (Raise TypeError, w')).
Proof.
  assert (H : (environ (start (Ext := demo_no_tracking)) ∪ @dotenv demo_no_tracking)
                !! "TRACKING_NUMBER" = None) by (vm_compute; reflexivity).
  split; [exact H|].
  exact (unset_tracking_number_raises (Ext := demo_no_tracking) start H).
Defined.



(** The report of that iteration, oldest line first. *)
Example demo_report :
  rev (omap (λ e, match e with EvPrint s => Some s | _ => None end)
         (cycle_events demo_app demo_snapshot demo_message 4)) =
  ["Last Status for Tracking Number 9400 " +:+ em_dash +:+ "> In Transit";
   "X";
   "Y: Chicago, IL";
   "Last Seen on Nov 3, 2023 10:15 AM";
   Text.repeat_str em_dash 48;
   "Saving results." +:+ String "010" "Fetching new data in 15 minutes.";
   ""].
Proof. vm_compute. reflexivity. Qed.

(** The minutes announced are the integer part of the quotient computed
    on [float]s: exact for the period the application uses, rounded for
    periods beyond the precision of a double, and an [OverflowError]
    beyond its range. *)
Example next_poll_minutes :
  (int_of_float <$> (match int_truediv 900 60 with Ok x => Some x | _ => None end))
  = Some 15 ∧
  (int_of_float <$> (match int_truediv 899 60 with Ok x => Some x | _ => None end))
  = Some 14 ∧
  (int_of_float <$> (match int_truediv (60 * 2 ^ 49 + 59) 60 with
                     | Ok x => Some x | _ => None end))
  = Some (2 ^ 49 + 1) ∧
  int_truediv (2 ^ 1030) 60 = Raise OverflowError.
Proof. repeat split; vm_compute; reflexivity. Qed.

(** X7 at a concrete input: the demo application. *)
Lemma construction_postcondition_witness :
  App_init (Ext := demo) "usps" start = (Ok demo_app, demo_started) ∧
  ∃ tn r nm q d,
    Text.match_us "usps" = true ∧
    (environ (start (Ext := demo)) ∪ @dotenv demo) !! "TRACKING_NUMBER" = Some tn ∧
    http_get (Externals := demo) (requests_sent (start (Ext := demo)))
      (usps_base_url +:+ tn)
      ((environ (start (Ext := demo)) ∪ @dotenv demo) !! "USER_AGENT") = Ok r ∧
    Response_ok r = true ∧
    delivery_service demo_app =
      {| oid := next_oid (start (Ext := demo)); _tracking_number := tn;
         BASE_URL := usps_base_url; response := r;
         soup := html_parser (Externals := demo) (text r) |} ∧
    sleep demo_app = 900 ∧
    requests_sent demo_started = S (requests_sent (start (Ext := demo))) ∧
    (environ (start (Ext := demo)) ∪ @dotenv demo) !! "DB_NAME" = Some nm ∧
    Text.endswith nm ext = true ∧
    (environ (start (Ext := demo)) ∪ @dotenv demo) !! "CREATE_TABLE" = Some q ∧
    sql_exec (Externals := demo) q None
      (default empty_db (files (start (Ext := demo)) !! nm)) = Ok d ∧
    files demo_started = <[nm := d]> (files start).
Proof.
  split; [exact demo_started_eq|].
  exact (construction_postcondition (Ext := demo) "usps" start demo_started
           demo_app demo_started_eq).
Defined.


(** X10 at a concrete input: the store name [tracking.sqlite]. *)
Lemma store_name_checked_after_fetch_witness :
  Text.match_us "usps" = true ∧
  USPS_init (Ext := demo_bad_name) (snd (load_dotenv start))
  = (Ok demo_usps, demo_bad_name_fetched) ∧
  (environ (start (Ext := demo_bad_name)) ∪ @dotenv demo_bad_name) !! "DB_NAME"
  = Some "tracking.sqlite" ∧
  Text.endswith "tracking.sqlite" ext = false ∧
  ∃ w',
    App_init (Ext := demo_bad_name) "usps" start =
      (Raise (ValueError ("tracking.sqlite" +:+ " must end with " +:+ ext)), w') ∧
    requests_sent w' = S (requests_sent (start (Ext := demo_bad_name))) ∧
    files w' = files start ∧ connections w' = connections start.
Proof.
  assert (H2 : USPS_init (Ext := demo_bad_name) (snd (load_dotenv start))
               = (Ok demo_usps, demo_bad_name_fetched))
    by (unfold demo_bad_name_fetched; by_eval).
  assert (H3 : (environ (start (Ext := demo_bad_name)) ∪ @dotenv demo_bad_name)
                 !! "DB_NAME" = Some "tracking.sqlite") by (vm_compute; reflexivity).
  split; [reflexivity|]. split; [exact H2|]. split; [exact H3|].
  split; [reflexivity|].
  exact (store_name_checked_after_fetch (Ext := demo_bad_name) "usps" start
           demo_bad_name_fetched demo_usps "tracking.sqlite" eq_refl H2 H3 eq_refl).
Defined.

(** X11 at a concrete input: a row is written inside the [with] block of
    the open demo store. *)
Lemma with_block_closes_connection_witness :
  databases demo_store !! 0%nat
  = Some {| name := Some "tracking.db"; conn := Some 1%nat; cursor := Some 1%nat |} ∧
  connections demo_store !! 1%nat
  = Some {| c_file := "tracking.db"; c_open := true; c_tx := None |} ∧
  respects connections_kept (Database_insert (Ext := demo) 0 (Some demo_insert) demo_row) ∧
  (fst (with_Database 0 (λ db, Database_insert db (Some demo_insert) demo_row) demo_store)
   = fst (Database_insert 0 (Some demo_insert) demo_row demo_store) ∧
   c_open <$> (connections
                 (snd (with_Database 0
                         (λ db, Database_insert db (Some demo_insert) demo_row)
                         demo_store)) !! 1%nat) = Some false ∧
   files (snd (with_Database 0 (λ db, Database_insert db (Some demo_insert) demo_row)
                 demo_store))
   = files (snd (Database_insert 0 (Some demo_insert) demo_row demo_store))).
Proof.
  assert (H1 : databases demo_store !! 0%nat
               = Some {| name := Some "tracking.db"; conn := Some 1%nat;
                         cursor := Some 1%nat |}) by (vm_compute; reflexivity).
  assert (H2 : connections demo_store !! 1%nat
               = Some {| c_file := "tracking.db"; c_open := true; c_tx := None |})
    by (vm_compute; reflexivity).
  split; [exact H1|]. split; [exact H2|].
  split; [apply Database_insert_kept|].
  exact (with_block_closes_connection (Ext := demo) 0
           (λ db, Database_insert db (Some demo_insert) demo_row) demo_store
           (Some "tracking.db") 1
           {| c_file := "tracking.db"; c_open := true; c_tx := None |}
           H1 H2 (Database_insert_kept 0 (Some demo_insert) demo_row)).
Defined.

(** Inside the block the write returns and stores its row. *)
Example insert_inside_with_block :
  fst (with_Database (Ext := demo) 0
         (λ db, Database_insert db (Some demo_insert) demo_row) demo_store) = Ok tt ∧
  files (snd (with_Database (Ext := demo) 0
                (λ db, Database_insert db (Some demo_insert) demo_row) demo_store))
    !! "tracking.db" = Some [(demo_create, None); (demo_insert, Some demo_row)].
Proof. split; vm_compute; reflexivity. Qed.

End DemoProperties.
